(** * dexscreener-js: a shallow embedding of [src/index.ts]

    The client is a thin wrapper around an HTTP API.  The embedding keeps
    the shape of the TypeScript source:

    - strings are [string] (ASCII text; [toUpperCase] and [toLowerCase]
      act on the letters a-z / A-Z and leave every other byte alone);
    - a JavaScript [number] is [number] below: NaN, the two infinities,
      or a finite value carried as an exact rational, which covers every
      finite double; the source only compares numbers with [>] and tests
      their truthiness, both of which are exact on doubles;
    - [Map<string, T>] is [gmap string T]: the entries of the map, without
      the order in which they were inserted, which nothing below reads;
    - [async] functions that call [fetch], [setTimeout], [console.error]
      or [new Date()] run in a small state monad [M] over the trace of
      events issued so far, reading the outside world from a [Host]. *)

From Stdlib Require Import ZArith QArith Lqa Ascii String List Bool Permutation.
From Stdlib Require Import Sorted.
From stdpp Require Import gmap strings list fin_maps.

Local Open Scope string_scope.
Local Open Scope list_scope.
Local Open Scope nat_scope.

(* ===================================================================== *)
(** ** Strings *)
(* ===================================================================== *)

Module Str.

Fixpoint mapChars (f : ascii -> ascii) (s : string) : string :=
  match s with
  | EmptyString => EmptyString
  | String c s' => String (f c) (mapChars f s')
  end.

Definition upperChar (c : ascii) : ascii :=
  let n := N_of_ascii c in
  if ((97 <=? n) && (n <=? 122))%N then ascii_of_N (n - 32) else c.

Definition lowerChar (c : ascii) : ascii :=
  let n := N_of_ascii c in
  if ((65 <=? n) && (n <=? 90))%N then ascii_of_N (n + 32) else c.

(** [s.toUpperCase()] and [s.toLowerCase()]. *)
Definition toUpperCase : string -> string := mapChars upperChar.
Definition toLowerCase : string -> string := mapChars lowerChar.

(** Truthiness of a string: every string but the empty one. *)
Definition truthy (s : string) : bool :=
  match s with EmptyString => false | String _ _ => true end.

(** Truthiness of a string that may be missing. *)
Definition optTruthy (s : option string) : bool :=
  match s with Some s' => truthy s' | None => false end.

(** [xs.join(sep)]. *)
Fixpoint join (sep : string) (xs : list string) : string :=
  match xs with
  | [] => ""
  | [x] => x
  | x :: rest => (x ++ sep ++ join sep rest)%string
  end.

Definition hexDigit (n : N) : ascii :=
  if (n <? 10)%N then ascii_of_N (48 + n) else ascii_of_N (55 + n).

(** The characters [encodeURIComponent] leaves alone:
    A-Z a-z 0-9 - _ . ! ~ * ' ( ) *)
Definition unreserved (c : ascii) : bool :=
  let n := N_of_ascii c in
  (((65 <=? n) && (n <=? 90)) || ((97 <=? n) && (n <=? 122))
   || ((48 <=? n) && (n <=? 57))
   || (n =? 45) || (n =? 95) || (n =? 46) || (n =? 33) || (n =? 126)
   || (n =? 42) || (n =? 39) || (n =? 40) || (n =? 41))%N.

(** [encodeURIComponent(s)], byte by byte. *)
Fixpoint encodeURIComponent (s : string) : string :=
  match s with
  | EmptyString => EmptyString
  | String c s' =>
      if unreserved c then String c (encodeURIComponent s')
      else
        let n := N_of_ascii c in
        String "%" (String (hexDigit (n / 16)) (String (hexDigit (n mod 16))
                                                       (encodeURIComponent s')))
  end.

End Str.

(* ===================================================================== *)
(** ** Numbers *)
(* ===================================================================== *)

Inductive number : Type :=
| NaN
| NegInfinity
| PosInfinity
| Fin (q : Q).

Module Num.

Definition zero : number := Fin 0.
Definition ofZ (z : Z) : number := Fin (inject_Z z).

(** [a > b]. *)
Definition gt (a b : number) : bool :=
  match a, b with
  | NaN, _ | _, NaN => false
  | PosInfinity, PosInfinity => false
  | PosInfinity, _ => true
  | _, PosInfinity => false
  | NegInfinity, _ => false
  | Fin _, NegInfinity => true
  | Fin x, Fin y => negb (Qle_bool x y)
  end.

(** [a === b] on numbers (the two zeros are one value here). *)
Definition eqb (a b : number) : bool :=
  match a, b with
  | PosInfinity, PosInfinity => true
  | NegInfinity, NegInfinity => true
  | Fin x, Fin y => Qeq_bool x y
  | _, _ => false
  end.

(** Truthiness: every number but 0 and NaN. *)
Definition truthy (a : number) : bool :=
  match a with
  | NaN => false
  | Fin q => negb (Qeq_bool q 0)
  | _ => true
  end.

(** [x || d] where [x] is a possibly missing number. *)
Definition orElse (x : option number) (d : number) : number :=
  match x with
  | Some a => if truthy a then a else d
  | None => d
  end.

Definition isNaN (a : number) : bool :=
  match a with NaN => true | _ => false end.

End Num.

(* ===================================================================== *)
(** ** Chain normalizer *)
(* ===================================================================== *)

Definition DEXSCREENER_BASE : string := "https://api.dexscreener.com/latest".

Definition CHAIN_MAP : list (string * string) :=
  [ ("SOL", "solana"); ("ETH", "ethereum"); ("BASE", "base");
    ("ARB", "arbitrum"); ("BSC", "bsc"); ("AVAX", "avalanche");
    ("MATIC", "polygon"); ("FTM", "fantom"); ("OP", "optimism") ].

(** [obj[key]] on an object literal. *)
Fixpoint property (obj : list (string * string)) (key : string) : option string :=
  match obj with
  | [] => None
  | (k, v) :: rest => if String.eqb k key then Some v else property rest key
  end.

(** [CHAIN_MAP[chain.toUpperCase()] || chain.toLowerCase()] *)
Definition normalizeChain (chain : string) : string :=
  match property CHAIN_MAP (Str.toUpperCase chain) with
  | Some slug => if Str.truthy slug then slug else Str.toLowerCase chain
  | None => Str.toLowerCase chain
  end.

(* ===================================================================== *)
(** ** Types *)
(* ===================================================================== *)

Record Token := {
  address : string;
  name : string;
  symbol : string;
}.

Record TxnCount := { buys : option number; sells : option number }.

(** The four fixed windows ([txns], [volume], [priceChange]). *)
Record Windows (A : Type) := {
  h24 : option A;
  h6 : option A;
  h1 : option A;
  m5 : option A;
}.
Arguments h24 {A} _.
Arguments h6 {A} _.
Arguments h1 {A} _.
Arguments m5 {A} _.

Record Liquidity := {
  usd : option number;
  base : option number;
  quote : option number;
}.

Record Website := { label : string; websiteUrl : string }.
Record Social := { type : string; socialUrl : string }.

Record PairInfo := {
  imageUrl : option string;
  websites : option (list Website);
  socials : option (list Social);
}.

(** [DexScreenerPair].  The nested objects and the numbers the source
    reads through [?.] or [|| 0] may be missing. *)
Record DexScreenerPair := {
  chainId : string;
  dexId : string;
  url : string;
  pairAddress : string;
  baseToken : Token;
  quoteToken : Token;
  priceNative : string;
  priceUsd : string;
  txns : option (Windows TxnCount);
  volume : option (Windows number);
  priceChange : option (Windows number);
  liquidity : option Liquidity;
  fdv : option number;
  marketCap : option number;
  pairCreatedAt : option number;
  info : option PairInfo;
}.

Record TokenMetrics := {
  tm_ticker : string;
  tm_name : string;
  tm_chain : string;
  tm_contract : string;
  tm_priceUsd : number;
  tm_priceChange24h : number;
  tm_volume24h : number;
  tm_liquidity : number;
  tm_marketCap : number;
  tm_fdv : number;
  tm_pairUrl : string;
  tm_dex : string;
  tm_imageUrl : option string;
  tm_fetchedAt : Z;
}.

Record TokenSocials := {
  twitter : option string;
  telegram : option string;
  discord : option string;
  website : option string;
}.

(** One element of the argument of [batchGetMetrics]. *)
Record MetricsRequest := {
  rq_ticker : string;
  rq_chain : option string;
  rq_contract : option string;
}.

(* ===================================================================== *)
(** ** The outside world *)
(* ===================================================================== *)

(** What [response.json()] gives: it rejects (or yields a value with no
    properties to read), or it is an object whose [pairs] may be missing. *)
Inductive Body : Type :=
| Unreadable
| Json (pairs : option (list DexScreenerPair)).

(** What [await fetch(url)] gives: it rejects, or a status and a body. *)
Inductive Response : Type :=
| Rejected
| Http (status : Z) (body : Body).

(** [response.ok] *)
Definition ok (status : Z) : bool := ((200 <=? status) && (status <=? 299))%Z.

Inductive Event : Type :=
| Fetch (target : string)
| Sleep (ms : Z)
| ConsoleError (msg : string).

(** The host answers the n-th request of a run, and tells the time. *)
Record Host := {
  respond : nat -> string -> Response;
  clock : nat -> Z;
}.

Definition isFetch (e : Event) : bool :=
  match e with Fetch _ => true | _ => false end.

Definition requests (tr : list Event) : nat := List.length (List.filter isFetch tr).

(** Computations that read the host and extend the trace of events. *)
Definition M (A : Type) : Type := Host -> list Event -> A * list Event.

Definition ret {A} (a : A) : M A := fun _ tr => (a, tr).

Definition bind {A B} (m : M A) (k : A -> M B) : M B :=
  fun h tr => let (a, tr') := m h tr in k a h tr'.

Notation "x <~ m ;; k" := (bind m (fun x => k))
  (at level 100, m at next level, right associativity).
Notation "m ;;; k" := (bind m (fun _ => k))
  (at level 100, right associativity).

Definition fetch (target : string) : M Response :=
  fun h tr => (respond h (requests tr) target, tr ++ [Fetch target]).

Definition setTimeout (ms : Z) : M unit := fun _ tr => (tt, tr ++ [Sleep ms]).

Definition consoleError (msg : string) : M unit :=
  fun _ tr => (tt, tr ++ [ConsoleError msg]).

Definition newDate : M Z := fun h tr => (clock h (List.length tr), tr).

(** The three ways the common prefix of every [try] block can go:
    [fetch] or [response.json()] throws, the status is not ok, or the
    pairs are read as [data.pairs || []]. *)
Inductive Read : Type :=
| Threw
| NotOk (status : Z)
| Pairs (pairs : list DexScreenerPair).

Definition readPairs (r : Response) : Read :=
  match r with
  | Rejected => Threw
  | Http status body =>
      if ok status then
        match body with
        | Unreadable => Threw
        | Json pairs => Pairs (default [] pairs)
        end
      else NotOk status
  end.

(* ===================================================================== *)
(** ** Core functions *)
(* ===================================================================== *)

(** [pair.liquidity?.usd || 0] *)
Definition liquidityUsd (pair : DexScreenerPair) : number :=
  Num.orElse (liquidity pair ≫= usd) Num.zero.

(** The callback of the three [reduce] calls. *)
Definition moreLiquid (best pair : DexScreenerPair) : DexScreenerPair :=
  if Num.gt (liquidityUsd pair) (liquidityUsd best) then pair else best.

(** [pairs.reduce(moreLiquid, pairs[0])], for a non-empty [pairs]. *)
Definition highestLiquidity (pairs : list DexScreenerPair) : option DexScreenerPair :=
  match pairs with
  | [] => None
  | first :: _ => Some (fold_left moreLiquid pairs first)
  end.

(** [`${DEXSCREENER_BASE}/dex/search?q=${encodeURIComponent(query)}`] *)
Definition searchUrl (query : string) : string :=
  (DEXSCREENER_BASE ++ "/dex/search?q=" ++ Str.encodeURIComponent query)%string.

(** [`${DEXSCREENER_BASE}/dex/tokens/${address}`] *)
Definition tokensUrl (addr : string) : string :=
  (DEXSCREENER_BASE ++ "/dex/tokens/" ++ addr)%string.

Definition searchToken (query : string) : M (option DexScreenerPair) :=
  response <~ fetch (searchUrl query) ;;
  match readPairs response with
  | Pairs pairs => ret (highestLiquidity pairs)
  | _ => consoleError ("DexScreener search error for " ++ query ++ ":")%string ;;; ret None
  end.

Definition getTokenByAddress (chain addr : string) : M (option DexScreenerPair) :=
  let chainId' := normalizeChain chain in
  response <~ fetch (tokensUrl addr) ;;
  match readPairs response with
  | Pairs pairs =>
      match pairs with
      | [] => ret None
      | first :: _ =>
          let filteredPairs :=
            if Str.truthy chainId'
            then List.filter (fun p => String.eqb (chainId p) chainId') pairs
            else pairs in
          match filteredPairs with
          | [] => ret (Some first)
          | _ :: _ => ret (highestLiquidity filteredPairs)
          end
      end
  | _ => consoleError ("DexScreener fetch error for " ++ chain ++ ":" ++ addr ++ ":")%string ;;; ret None
  end.

(* ===================================================================== *)
(** ** Batch lookup by address *)
(* ===================================================================== *)

Definition BATCH_SIZE : nat := 30.

(** [xs.slice(i, j)] for [0 <= i <= j]. *)
Definition slice {A} (i j : nat) (xs : list A) : list A := take (j - i) (drop i xs).

(** The loop [for (let i = 0; i < addresses.length; i += BATCH_SIZE)]
    from index [i] on; [fuel] bounds the number of iterations. *)
Fixpoint sliceFrom (fuel i : nat) (addresses : list string) : list (list string) :=
  match fuel with
  | O => []
  | S fuel' =>
      if i <? List.length addresses
      then slice i (i + BATCH_SIZE) addresses :: sliceFrom fuel' (i + BATCH_SIZE) addresses
      else []
  end.

Definition makeBatches (addresses : list string) : list (list string) :=
  sliceFrom (List.length addresses) 0 addresses.

(** [chainFilter ? normalizeChain(chainFilter) : null] *)
Definition normalizedFilter (chainFilter : option string) : option string :=
  match chainFilter with
  | Some c => if Str.truthy c then Some (normalizeChain c) else None
  | None => None
  end.

(** [normalizedChain && pair.chainId !== normalizedChain] *)
Definition offChain (normalizedChain : option string) (pair : DexScreenerPair) : bool :=
  match normalizedChain with
  | Some c => Str.truthy c && negb (String.eqb (chainId pair) c)
  | None => false
  end.

(** One turn of the grouping loop over the pairs of a response. *)
Definition groupPair (normalizedChain : option string)
    (pairsByAddress : gmap string (list DexScreenerPair)) (pair : DexScreenerPair)
    : gmap string (list DexScreenerPair) :=
  if offChain normalizedChain pair then pairsByAddress
  else
    let addr := address (baseToken pair) in
    let existing := default [] (pairsByAddress !! addr) in
    <[addr := existing ++ [pair]]> pairsByAddress.

(** One turn of the loop over the groups; a group is never empty. *)
Definition pickBest (addr : string) (tokenPairs : list DexScreenerPair)
    (results : gmap string DexScreenerPair) : gmap string DexScreenerPair :=
  match highestLiquidity tokenPairs with
  | Some bestPair => <[addr := bestPair]> results
  | None => results
  end.

(** [`${DEXSCREENER_BASE}/dex/tokens/${batch.join(',')}`] *)
Definition batchUrl (batch : list string) : string := tokensUrl (Str.join "," batch).

(** The body of [for (const batch of batches)]. *)
Definition fetchBatch (nbatches : nat) (normalizedChain : option string)
    (results : gmap string DexScreenerPair) (batch : list string)
    : M (gmap string DexScreenerPair) :=
  response <~ fetch (batchUrl batch) ;;
  match readPairs response with
  | Threw => consoleError "DexScreener batch fetch error:" ;;; ret results
  | NotOk _ => ret results
  | Pairs pairs =>
      let pairsByAddress := fold_left (groupPair normalizedChain) pairs ∅ in
      let results' := map_fold pickBest results pairsByAddress in
      (if 1 <? nbatches then setTimeout 100 else ret tt) ;;;
      ret results'
  end.

Fixpoint forBatches (nbatches : nat) (normalizedChain : option string)
    (batches : list (list string)) (results : gmap string DexScreenerPair)
    : M (gmap string DexScreenerPair) :=
  match batches with
  | [] => ret results
  | batch :: rest =>
      results' <~ fetchBatch nbatches normalizedChain results batch ;;
      forBatches nbatches normalizedChain rest results'
  end.

Definition getTokensByAddresses (addresses : list string) (chainFilter : option string)
    : M (gmap string DexScreenerPair) :=
  match addresses with
  | [] => ret ∅
  | _ :: _ =>
      let normalizedChain := normalizedFilter chainFilter in
      let batches := makeBatches addresses in
      forBatches (List.length batches) normalizedChain batches ∅
  end.

(* ===================================================================== *)
(** ** Utilities *)
(* ===================================================================== *)

Definition noSocials : TokenSocials :=
  {| twitter := None; telegram := None; discord := None; website := None |}.

Definition setTwitter (s : TokenSocials) (u : string) : TokenSocials :=
  {| twitter := Some u; telegram := telegram s; discord := discord s; website := website s |}.
Definition setTelegram (s : TokenSocials) (u : string) : TokenSocials :=
  {| twitter := twitter s; telegram := Some u; discord := discord s; website := website s |}.
Definition setDiscord (s : TokenSocials) (u : string) : TokenSocials :=
  {| twitter := twitter s; telegram := telegram s; discord := Some u; website := website s |}.
Definition setWebsite (s : TokenSocials) (u : string) : TokenSocials :=
  {| twitter := twitter s; telegram := telegram s; discord := discord s; website := Some u |}.

(** The body of [for (const social of pair.info.socials)]. *)
Definition readSocial (socials : TokenSocials) (social : Social) : TokenSocials :=
  let type' := Str.toLowerCase (type social) in
  let s1 := if String.eqb type' "twitter" then setTwitter socials (socialUrl social) else socials in
  let s2 := if String.eqb type' "telegram" then setTelegram s1 (socialUrl social) else s1 in
  if String.eqb type' "discord" then setDiscord s2 (socialUrl social) else s2.

Definition extractSocials (pair : DexScreenerPair) : TokenSocials :=
  let found :=
    match info pair ≫= socials with
    | Some entries => fold_left readSocial entries noSocials
    | None => noSocials
    end in
  match info pair ≫= websites with
  | Some (w :: _) =>
      if Str.truthy (websiteUrl w) then setWebsite found (websiteUrl w) else found
  | _ => found
  end.

(* ===================================================================== *)
(** ** Metrics *)
(* ===================================================================== *)

Section Metrics.

(** The host's [parseFloat]; nothing is assumed about it. *)
Variable parseFloat : string -> number.

(** [fetchedAt: new Date()] is passed in as [now]. *)
Definition pairToMetrics (now : Z) (pair : DexScreenerPair) : TokenMetrics :=
  {| tm_ticker := symbol (baseToken pair);
     tm_name := name (baseToken pair);
     tm_chain := Str.toUpperCase (chainId pair);
     tm_contract := address (baseToken pair);
     tm_priceUsd := Num.orElse (Some (parseFloat (priceUsd pair))) Num.zero;
     tm_priceChange24h := Num.orElse (priceChange pair ≫= h24) Num.zero;
     tm_volume24h := Num.orElse (volume pair ≫= h24) Num.zero;
     tm_liquidity := Num.orElse (liquidity pair ≫= usd) Num.zero;
     tm_marketCap := Num.orElse (marketCap pair) (Num.orElse (fdv pair) Num.zero);
     tm_fdv := Num.orElse (fdv pair) Num.zero;
     tm_pairUrl := url pair;
     tm_dex := dexId pair;
     tm_imageUrl := info pair ≫= imageUrl;
     tm_fetchedAt := now |}.

Definition project (pair : DexScreenerPair) : M TokenMetrics :=
  now <~ newDate ;; ret (pairToMetrics now pair).

(** [pair.baseToken.symbol.toUpperCase() !== ticker.toUpperCase()] *)
Definition symbolDiffers (pair : DexScreenerPair) (ticker : string) : bool :=
  negb (String.eqb (Str.toUpperCase (symbol (baseToken pair))) (Str.toUpperCase ticker)).

(** [chain ? `${ticker} ${chain}` : ticker] *)
Definition metricsQuery (ticker : string) (chain : option string) : string :=
  if Str.optTruthy chain then (ticker ++ " " ++ default "" chain)%string else ticker.

Definition getTokenMetrics (ticker : string) (chain : option string)
    : M (option TokenMetrics) :=
  found <~ searchToken (metricsQuery ticker chain) ;;
  match found with
  | None => ret None
  | Some p =>
      if symbolDiffers p ticker then
        retried <~ searchToken ticker ;;
        match retried with
        | None => ret None
        | Some retryPair =>
            if symbolDiffers retryPair ticker then ret None
            else (m <~ project retryPair ;; ret (Some m))
        end
      else (m <~ project p ;; ret (Some m))
  end.

(** The body of [for (const token of tokens)]. *)
Definition fetchMetrics (results : gmap string TokenMetrics) (token : MetricsRequest)
    : M (gmap string TokenMetrics) :=
  results' <~
    (if Str.optTruthy (rq_contract token) && Str.optTruthy (rq_chain token) then
       found <~ getTokenByAddress (default "" (rq_chain token))
                                  (default "" (rq_contract token)) ;;
       match found with
       | Some p => (m <~ project p ;; ret (<[rq_ticker token := m]> results))
       | None => ret results
       end
     else
       metrics <~ getTokenMetrics (rq_ticker token) (rq_chain token) ;;
       match metrics with
       | Some m => ret (<[rq_ticker token := m]> results)
       | None => ret results
       end) ;;
  setTimeout 250 ;;;
  ret results'.

Fixpoint forTokens (tokens : list MetricsRequest) (results : gmap string TokenMetrics)
    : M (gmap string TokenMetrics) :=
  match tokens with
  | [] => ret results
  | token :: rest =>
      results' <~ fetchMetrics results token ;;
      forTokens rest results'
  end.

Definition batchGetMetrics (tokens : list MetricsRequest) : M (gmap string TokenMetrics) :=
  forTokens tokens ∅.

End Metrics.

(* ===================================================================== *)
(** ** The maximum, as the specification words it *)
(* ===================================================================== *)

(** The larger of two numbers, and the largest [liquidity.usd] (missing
    read as 0) over a list of pairs. *)
Definition largerOf (a b : number) : number := if Num.gt a b then a else b.

Definition maximumUsd (pairs : list DexScreenerPair) : number :=
  fold_right (fun p m => largerOf (liquidityUsd p) m) NegInfinity pairs.

(** The trace the specification describes for a batch lookup: one request
    per chunk, a 100ms pause between consecutive requests only. *)
Fixpoint pausedBetween (targets : list string) : list Event :=
  match targets with
  | [] => []
  | [t] => [Fetch t]
  | t :: rest => Fetch t :: Sleep 100 :: pausedBetween rest
  end.

(** The sizes of the chunks cut from [n] addresses, by the loop of
    [sliceFrom] run on lengths alone. *)
Fixpoint sliceLengths (fuel i n : nat) : list nat :=
  match fuel with
  | O => []
  | S fuel' =>
      if i <? n then Nat.min BATCH_SIZE (n - i) :: sliceLengths fuel' (i + BATCH_SIZE) n
      else []
  end.

(** The requests and pauses of a trace, in order. *)
Definition schedule (tr : list Event) : list Event :=
  List.filter (fun e => match e with ConsoleError _ => false | _ => true end) tr.

(** The last entry of a social-link list whose type is [kind], compared
    case-insensitively. *)
Definition lastOfType (kind : string) (entries : list Social) : option string :=
  socialUrl <$> last (List.filter (fun s => String.eqb (Str.toLowerCase (type s)) kind) entries).

(* ===================================================================== *)
(** ** The batch loop in closed form *)
(* ===================================================================== *)

(** How the request for [batch], issued as request number [k], is read. *)
Definition answer (h : Host) (k : nat) (batch : list string) : Read :=
  readPairs (respond h k (batchUrl batch)).

(** The events one turn of the batch loop adds, by the way its request
    is read. *)
Definition batchEvents (nbatches : nat) (batch : list string) (r : Read) : list Event :=
  Fetch (batchUrl batch) ::
  match r with
  | Threw => [ConsoleError "DexScreener batch fetch error:"]
  | NotOk _ => []
  | Pairs _ => if 1 <? nbatches then [Sleep 100] else []
  end.

(** The result map after one turn of the batch loop. *)
Definition batchResults (normalizedChain : option string) (r : Read)
    (results : gmap string DexScreenerPair) : gmap string DexScreenerPair :=
  match r with
  | Pairs pairs => map_fold pickBest results (fold_left (groupPair normalizedChain) pairs ∅)
  | _ => results
  end.

(** The result map after the whole loop, the first request being number [k]. *)
Fixpoint batchesResults (h : Host) (normalizedChain : option string) (k : nat)
    (batches : list (list string)) (results : gmap string DexScreenerPair)
    : gmap string DexScreenerPair :=
  match batches with
  | [] => results
  | batch :: rest =>
      batchesResults h normalizedChain (S k) rest
        (batchResults normalizedChain (answer h k batch) results)
  end.

(** The events of the whole loop, one segment per chunk. *)
Fixpoint batchesSegments (h : Host) (nbatches k : nat) (batches : list (list string))
    : list (list Event) :=
  match batches with
  | [] => []
  | batch :: rest =>
      batchEvents nbatches batch (answer h k batch) :: batchesSegments h nbatches (S k) rest
  end.

(** The pairs of a response that the grouping loop files under [addr]. *)
Definition groupOf (normalizedChain : option string) (addr : string)
    (pairs : list DexScreenerPair) : list DexScreenerPair :=
  List.filter (fun p => negb (offChain normalizedChain p)
                        && String.eqb (address (baseToken p)) addr) pairs.

(* ===================================================================== *)
(** ** Sample data *)
(* ===================================================================== *)

Module Sample.

Definition token (addr sym : string) : Token :=
  {| address := addr; name := sym; symbol := sym |}.

Definition usdOnly (z : Z) : Liquidity :=
  {| usd := Some (Num.ofZ z); base := None; quote := None |}.

(** A pair on [chain] for the token [sym] at [addr], with the given
    [liquidity.usd] (or no [liquidity] object at all). *)
Definition pairOf (chain addr sym : string) (liq : option Z) : DexScreenerPair :=
  {| chainId := chain; dexId := "raydium"; url := "https://dexscreener.com/p";
     pairAddress := ("pool-" ++ addr)%string;
     baseToken := token addr sym; quoteToken := token "quote" "USDC";
     priceNative := "1"; priceUsd := "0.5";
     txns := None; volume := None; priceChange := None;
     liquidity := usdOnly <$> liq;
     fdv := None; marketCap := None; pairCreatedAt := None; info := None |}.

Definition withInfo (p : DexScreenerPair) (i : PairInfo) : DexScreenerPair :=
  {| chainId := chainId p; dexId := dexId p; url := url p;
     pairAddress := pairAddress p; baseToken := baseToken p;
     quoteToken := quoteToken p; priceNative := priceNative p;
     priceUsd := priceUsd p; txns := txns p; volume := volume p;
     priceChange := priceChange p; liquidity := liquidity p; fdv := fdv p;
     marketCap := marketCap p; pairCreatedAt := pairCreatedAt p;
     info := Some i |}.

Definition withCaps (p : DexScreenerPair) (price : string) (cap fdv' : option number)
    : DexScreenerPair :=
  {| chainId := chainId p; dexId := dexId p; url := url p;
     pairAddress := pairAddress p; baseToken := baseToken p;
     quoteToken := quoteToken p; priceNative := priceNative p;
     priceUsd := price; txns := txns p; volume := volume p;
     priceChange := priceChange p; liquidity := liquidity p; fdv := fdv';
     marketCap := cap; pairCreatedAt := pairCreatedAt p;
     info := info p |}.

(** A host that plays a script: the n-th request gets the n-th
    response, whatever its target; later requests are rejected. *)
Definition scripted (script : list Response) : Host :=
  {| respond := fun n _ => nth n script Rejected;
     clock := fun n => Z.of_nat n |}.

Definition found (pairs : list DexScreenerPair) : Response :=
  Http 200 (Json (Some pairs)).

Definition ethSmall : DexScreenerPair := pairOf "ethereum" "0xaaa" "AAA" (Some 1%Z).
Definition ethLarge : DexScreenerPair := pairOf "ethereum" "0xaaa" "AAA" (Some 2%Z).
Definition ethTied : DexScreenerPair := pairOf "ethereum" "0xbbb" "BBB" (Some 2%Z).
Definition solNone : DexScreenerPair := pairOf "solana" "So1" "SSS" None.

(** One response: two pairs on Ethereum, the smaller one first. *)
Definition ethPairs : list DexScreenerPair := [ethSmall; ethLarge].
Definition ethOnly : Host := scripted [found ethPairs].

(** A pair whose only website entry has the empty string as URL. *)
Definition blankEntry : Website := {| label := "Website"; websiteUrl := "" |}.
Definition blankSite : DexScreenerPair :=
  withInfo ethSmall {| imageUrl := None; websites := Some [blankEntry]; socials := None |}.

(** Two twitter entries in different case, and an empty website list. *)
Definition twoTwitters : DexScreenerPair :=
  withInfo ethSmall
    {| imageUrl := None; websites := Some [];
       socials := Some [ {| type := "Twitter"; socialUrl := "a" |};
                         {| type := "twitter"; socialUrl := "b" |} ] |}.

(** Market cap 0 with FDV 500, and a price that is not a number. *)
Definition zeroCap : DexScreenerPair :=
  withCaps ethSmall "n/a" (Some (Num.ofZ 0)) (Some (Num.ofZ 500)).

(** Thirty-one addresses, hence two chunks; a host whose every answer
    is an empty list of pairs, and one whose first answer is a 500. *)
Definition addresses31 : list string := repeat "So1" 31.
Definition allEmpty : Host := scripted [found []; found []].
Definition firstFails : Host := scripted [Http 500 Unreadable; found []].

(** Sixty-five addresses, hence three chunks; the second request fails. *)
Definition addresses65 : list string :=
  repeat "0xaaa" 30 ++ repeat "0xbbb" 30 ++ repeat "So1" 5.
Definition secondFails : Host :=
  scripted [found [ethSmall]; Http 503 Unreadable; found [solNone]].

(** A fuzzy match for the ticker XXX, then an exact one in lower case. *)
Definition fuzzy : DexScreenerPair := pairOf "solana" "Yyy1" "YYY" (Some 5%Z).
Definition exact : DexScreenerPair := pairOf "solana" "Xxx1" "xxx" (Some 3%Z).
Definition fuzzyThenExact : Host := scripted [found [fuzzy]; found [exact]].

(** Liquidities 1, 2 and 2: the first of the two largest is selected. *)
Definition threePairs : list DexScreenerPair := [ethSmall; ethLarge; ethTied].

(** A pair with one website. *)
Definition siteEntry : Website :=
  {| label := "Website"; websiteUrl := "https://aaa.example" |}.
Definition oneSite : DexScreenerPair :=
  withInfo ethSmall {| imageUrl := None; websites := Some [siteEntry]; socials := None |}.

(** One response with a pair on Ethereum and a pair on Solana. *)
Definition twoChains : Host := scripted [found [ethSmall; solNone]].

(** Two requests under the same ticker, by contract and chain. *)
Definition firstX : MetricsRequest :=
  {| rq_ticker := "X"; rq_chain := Some "ethereum"; rq_contract := Some "0xaaa" |}.
Definition secondX : MetricsRequest :=
  {| rq_ticker := "X"; rq_chain := Some "ethereum"; rq_contract := Some "0xbbb" |}.
Definition thirdY : MetricsRequest :=
  {| rq_ticker := "Y"; rq_chain := None; rq_contract := None |}.
Definition twoAnswers : Host := scripted [found [ethSmall]; found [ethTied]].

(** A reading of [parseFloat] good enough to run the examples: an
    unsigned run of decimal digits is its value, anything else NaN. *)
Fixpoint digits (acc : Z) (s : string) : option Z :=
  match s with
  | EmptyString => Some acc
  | String c s' =>
      let n := Z.of_N (N_of_ascii c) in
      if ((48 <=? n) && (n <=? 57))%Z then digits (10 * acc + (n - 48))%Z s' else None
  end.

Definition parseDigits (s : string) : number :=
  match s with
  | EmptyString => NaN
  | _ => match digits 0 s with Some z => Num.ofZ z | None => NaN end
  end.

End Sample.

(* ===================================================================== *)
(** ** Discovery and pool addresses *)
(* ===================================================================== *)

Module NumArith.

(** [ToNumber(x)] for a number that may be missing: [undefined] is NaN. *)
Definition toNumber (x : option number) : number := default NaN x.

(** [a - b].  On finite values the difference is exact here; a double
    difference is rounded, with the same sign. *)
Definition sub (a b : number) : number :=
  match a, b with
  | NaN, _ | _, NaN => NaN
  | PosInfinity, PosInfinity => NaN
  | NegInfinity, NegInfinity => NaN
  | PosInfinity, _ => PosInfinity
  | NegInfinity, _ => NegInfinity
  | Fin _, PosInfinity => NegInfinity
  | Fin _, NegInfinity => PosInfinity
  | Fin x, Fin y => Fin (x - y)
  end.

(** [a >= b]. *)
Definition ge (a b : number) : bool :=
  match a, b with
  | NaN, _ | _, NaN => false
  | _, _ => negb (Num.gt b a)
  end.

End NumArith.

(** [arr.sort(compareFn)]: the sort is stable, and an element moves
    behind another only when [compareFn] says more than 0 (NaN counts
    as 0).  For a consistent [compareFn] this fixes the result; it is
    computed here by insertion from the right. *)
Fixpoint insertSorted {A} (compareFn : A -> A -> number) (x : A) (sorted : list A)
    : list A :=
  match sorted with
  | [] => [x]
  | y :: rest =>
      if Num.gt (compareFn x y) Num.zero
      then y :: insertSorted compareFn x rest
      else x :: y :: rest
  end.

Definition arraySort {A} (compareFn : A -> A -> number) (arr : list A) : list A :=
  foldr (insertSorted compareFn) [] arr.

(** [arr.indexOf(x)], with [None] for -1. *)
Fixpoint indexOf (x : string) (arr : list string) : option nat :=
  match arr with
  | [] => None
  | y :: rest => if String.eqb y x then Some 0 else S <$> indexOf x rest
  end.

(** [arr.filter((x, idx) => f(x, idx))], from index [idx] on. *)
Fixpoint filterIndexed {A} (f : A -> nat -> bool) (idx : nat) (arr : list A) : list A :=
  match arr with
  | [] => []
  | x :: rest =>
      if f x idx then x :: filterIndexed f (S idx) rest
      else filterIndexed f (S idx) rest
  end.

(** [arr.filter((addr, idx, arr) => arr.indexOf(addr) === idx)] *)
Definition firstOccurrences (arr : list string) : list string :=
  filterIndexed
    (fun addr idx => match indexOf addr arr with Some i => i =? idx | None => false end)
    0 arr.

(** [`${DEXSCREENER_BASE}/dex/pairs/${normalizedChainId}`] *)
Definition pairsUrl (normalizedChainId : string) : string :=
  (DEXSCREENER_BASE ++ "/dex/pairs/" ++ normalizedChainId)%string.

(** [(a, b) => b.pairCreatedAt - a.pairCreatedAt] *)
Definition byCreation (a b : DexScreenerPair) : number :=
  NumArith.sub (NumArith.toNumber (pairCreatedAt b)) (NumArith.toNumber (pairCreatedAt a)).

(** [pair.volume?.h24 || 0] *)
Definition volume24 (pair : DexScreenerPair) : number :=
  Num.orElse (volume pair ≫= h24) Num.zero.

(** [(a, b) => (b.volume?.h24 || 0) - (a.volume?.h24 || 0)] *)
Definition byVolume (a b : DexScreenerPair) : number :=
  NumArith.sub (volume24 b) (volume24 a).

Definition getNewPairs (chain : string) : M (list DexScreenerPair) :=
  let normalizedChainId := normalizeChain chain in
  response <~ fetch (pairsUrl normalizedChainId) ;;
  match readPairs response with
  | Pairs pairs => ret (arraySort byCreation pairs)
  | _ => consoleError ("DexScreener new pairs error for " ++ chain ++ ":")%string ;;; ret []
  end.

(** [minVolume24h: number = 30000]: the default stands in for a missing
    argument. *)
Definition searchByVolume (query : string) (minVolume24h : option number)
    : M (list DexScreenerPair) :=
  let minVolume := default (Num.ofZ 30000) minVolume24h in
  response <~ fetch (searchUrl query) ;;
  match readPairs response with
  | Pairs pairs =>
      ret (arraySort byVolume
             (List.filter (fun pair => NumArith.ge (volume24 pair) minVolume) pairs))
  | _ => consoleError ("DexScreener volume search error for " ++ query ++ ":")%string ;;; ret []
  end.

(** [pair?.pairAddress || null] *)
Definition getLiquidityPoolAddress (chain tokenAddress : string) : M (option string) :=
  found <~ getTokenByAddress chain tokenAddress ;;
  ret (match found with
       | Some p => if Str.truthy (pairAddress p) then Some (pairAddress p) else None
       | None => None
       end).

Definition getAllLiquidityPoolAddresses (chain tokenAddress : string) : M (list string) :=
  let chainId' := normalizeChain chain in
  response <~ fetch (tokensUrl tokenAddress) ;;
  match readPairs response with
  | Threw =>
      consoleError ("Error fetching LP addresses for " ++ tokenAddress ++ ":")%string ;;;
      ret []
  | NotOk _ => ret []
  | Pairs pairs =>
      ret (firstOccurrences
             (map pairAddress (List.filter (fun p => String.eqb (chainId p) chainId') pairs)))
  end.


Module Sample2.

Definition aged (chain addr : string) (created : Z) (vol : Z) : DexScreenerPair :=
  {| chainId := chain; dexId := "orca"; url := "https://dexscreener.com/q";
     pairAddress := addr;
     baseToken := Sample.token "Tok1" "TOK"; quoteToken := Sample.token "quote" "USDC";
     priceNative := "1"; priceUsd := "2";
     txns := None;
     volume := Some {| h24 := Some (Num.ofZ vol); h6 := None; h1 := None; m5 := None |};
     priceChange := None; liquidity := None;
     fdv := None; marketCap := None; pairCreatedAt := Some (Num.ofZ created);
     info := None |}.

(** Three pools of one token on Solana, one of them listed twice, and
    one pool on Ethereum. *)
Definition poolA : DexScreenerPair := aged "solana" "poolA" 100 10000.
Definition poolB : DexScreenerPair := aged "solana" "poolB" 300 60000.
Definition poolC : DexScreenerPair := aged "solana" "poolC" 200 90000.
Definition poolE : DexScreenerPair := aged "ethereum" "poolE" 400 70000.
Definition pools : list DexScreenerPair := [poolA; poolB; poolA; poolE; poolC].
Definition poolHost : Host := Sample.scripted [Sample.found pools].

(** One response with a pair on Solana first, then two on Ethereum. *)
Definition mixed : list DexScreenerPair := [Sample.solNone; Sample.ethSmall; Sample.ethLarge].
Definition mixedHost : Host := Sample.scripted [Sample.found mixed].

End Sample2.

(* ===================================================================== *)
(** * Properties *)
(* ===================================================================== *)

(** ** The order on numbers *)

Module NumFacts.

Lemma gt_Fin x y : Num.gt (Fin x) (Fin y) = true <-> (y < x)%Q.
Proof.
  simpl. rewrite negb_true_iff. split.
  - intros H. apply Qnot_le_lt. intros Hle.
    apply Qle_bool_iff in Hle. congruence.
  - intros H. destruct (Qle_bool x y) eqn:E; [|reflexivity].
    apply Qle_bool_iff in E. lra.
Qed.

Lemma ngt_Fin x y : Num.gt (Fin x) (Fin y) = false <-> (x <= y)%Q.
Proof.
  simpl. rewrite negb_false_iff. apply Qle_bool_iff.
Qed.

Lemma eqb_Fin x y : Num.eqb (Fin x) (Fin y) = true <-> (x == y)%Q.
Proof. simpl. apply Qeq_bool_iff. Qed.

Ltac fin_facts :=
  repeat match goal with
         | H : Num.gt (Fin _) (Fin _) = true |- _ => apply gt_Fin in H
         | H : Num.gt (Fin _) (Fin _) = false |- _ => apply ngt_Fin in H
         | |- Num.gt (Fin _) (Fin _) = true => apply gt_Fin
         | |- Num.gt (Fin _) (Fin _) = false => apply ngt_Fin
         | |- Num.eqb (Fin _) (Fin _) = true => apply eqb_Fin
         end.

Ltac by_cases :=
  intros;
  repeat match goal with a : number |- _ => destruct a end;
  try (simpl in *; congruence);
  fin_facts; try lra.

Lemma gt_irrefl a : Num.gt a a = false.
Proof. by_cases. Qed.

Lemma gt_asym a b : Num.gt a b = true -> Num.gt b a = false.
Proof. by_cases. Qed.

Lemma gt_trans a b c :
  Num.gt a b = true -> Num.gt b c = true -> Num.gt a c = true.
Proof. by_cases. Qed.

(** [a > b] and not [c > b] give [a > c], when [c] is a number. *)
Lemma gt_ngt_trans a b c :
  Num.isNaN c = false ->
  Num.gt a b = true -> Num.gt c b = false -> Num.gt a c = true.
Proof. by_cases. Qed.

Lemma ngt_antisym a b :
  Num.isNaN a = false -> Num.isNaN b = false ->
  Num.gt a b = false -> Num.gt b a = false -> Num.eqb a b = true.
Proof. by_cases. Qed.

Lemma truthy_not_NaN a : Num.truthy a = true -> Num.isNaN a = false.
Proof. destruct a; simpl; congruence. Qed.

Lemma orElse_not_NaN x d : Num.isNaN d = false -> Num.isNaN (Num.orElse x d) = false.
Proof.
  intros Hd. destruct x as [a|]; simpl; [|exact Hd].
  destruct (Num.truthy a) eqn:E; [|exact Hd].
  now apply truthy_not_NaN.
Qed.

Lemma orElse_absent d : Num.orElse None d = d.
Proof. reflexivity. Qed.

Lemma orElse_falsy a d : Num.truthy a = false -> Num.orElse (Some a) d = d.
Proof. intros H. simpl. now rewrite H. Qed.

Lemma orElse_truthy a d : Num.truthy a = true -> Num.orElse (Some a) d = a.
Proof. intros H. simpl. now rewrite H. Qed.

End NumFacts.

(** ** Highest-liquidity selection *)

Lemma liquidityUsd_number p : Num.isNaN (liquidityUsd p) = false.
Proof. apply NumFacts.orElse_not_NaN. reflexivity. Qed.

Lemma moreLiquid_cases best p :
  (Num.gt (liquidityUsd p) (liquidityUsd best) = true /\ moreLiquid best p = p) \/
  (Num.gt (liquidityUsd p) (liquidityUsd best) = false /\ moreLiquid best p = best).
Proof.
  unfold moreLiquid. destruct (Num.gt _ _); [left | right]; split; reflexivity.
Qed.

(** The result of the reduce from accumulator [b]: either [b] survives
    and nothing in the list beats it, or the winner sits in the list,
    beats [b] and everything before it, and is not beaten afterwards. *)
Lemma reduce_moreLiquid l : forall b,
  let r := fold_left moreLiquid l b in
  (r = b /\ forall x, In x l -> Num.gt (liquidityUsd x) (liquidityUsd b) = false) \/
  (exists l1 l2, l = l1 ++ r :: l2 /\
     Num.gt (liquidityUsd r) (liquidityUsd b) = true /\
     (forall x, In x l1 -> Num.gt (liquidityUsd r) (liquidityUsd x) = true) /\
     (forall x, In x l2 -> Num.gt (liquidityUsd x) (liquidityUsd r) = false)).
Proof.
  induction l as [|x l IH]; intros b; cbn zeta.
  - left. split; [reflexivity | intros ? []].
  - simpl fold_left.
    destruct (moreLiquid_cases b x) as [[Hgt ->] | [Hgt ->]].
    + right. destruct (IH x) as [[Hr Hall] | (l1 & l2 & Hl & Hrx & H1 & H2)].
      * exists [], l. rewrite Hr. repeat split; simpl; auto; intros ? [].
      * exists (x :: l1), l2. repeat split; auto.
        -- simpl. now f_equal.
        -- eapply NumFacts.gt_trans; eauto.
        -- intros y [<- | Hy]; auto.
    + destruct (IH b) as [[Hr Hall] | (l1 & l2 & Hl & Hrb & H1 & H2)].
      * left. split; [exact Hr|]. intros y [<- | Hy]; auto.
      * right. exists (x :: l1), l2. repeat split; auto.
        -- simpl. now f_equal.
        -- intros y [<- | Hy]; auto.
           eapply NumFacts.gt_ngt_trans; eauto using liquidityUsd_number.
Qed.

(** What [highestLiquidity] returns on a non-empty list. *)
Lemma highestLiquidity_first_max l best :
  highestLiquidity l = Some best ->
  exists l1 l2, l = l1 ++ best :: l2 /\
    (forall x, In x l1 -> Num.gt (liquidityUsd best) (liquidityUsd x) = true) /\
    (forall x, In x l2 -> Num.gt (liquidityUsd x) (liquidityUsd best) = false).
Proof.
  destruct l as [|first rest]; [discriminate|].
  unfold highestLiquidity. intros [= <-]. simpl fold_left.
  destruct (moreLiquid_cases first first) as [[Hgt _] | [_ ->]].
  { rewrite NumFacts.gt_irrefl in Hgt. discriminate. }
  destruct (reduce_moreLiquid rest first) as [[-> Hall] | (l1 & l2 & Hl & Hrb & H1 & H2)].
  - exists [], rest. repeat split; auto; intros ? [].
  - exists (first :: l1), l2. repeat split; auto.
    + simpl. now f_equal.
    + intros y [<- | Hy]; auto.
Qed.

Lemma highestLiquidity_nonempty l :
  l <> [] -> exists best, highestLiquidity l = Some best.
Proof. destruct l; [congruence | eauto]. Qed.

Lemma highestLiquidity_In l best : highestLiquidity l = Some best -> In best l.
Proof.
  intros H. destruct (highestLiquidity_first_max _ _ H) as (l1 & l2 & -> & _).
  apply in_elt.
Qed.

Lemma highestLiquidity_max l best :
  highestLiquidity l = Some best ->
  forall x, In x l -> Num.gt (liquidityUsd x) (liquidityUsd best) = false.
Proof.
  intros H x Hx.
  destruct (highestLiquidity_first_max _ _ H) as (l1 & l2 & -> & H1 & H2).
  apply in_app_or in Hx. destruct Hx as [Hx | [<- | Hx]]; auto.
  - apply NumFacts.gt_asym. auto.
  - apply NumFacts.gt_irrefl.
Qed.

Lemma largerOf_cases a b :
  (Num.gt a b = true /\ largerOf a b = a) \/ (Num.gt a b = false /\ largerOf a b = b).
Proof. unfold largerOf. destruct (Num.gt a b); auto. Qed.

Lemma maximumUsd_upper l :
  forall x, In x l -> Num.gt (liquidityUsd x) (maximumUsd l) = false.
Proof.
  induction l as [|p l IH]; intros x Hx; [destruct Hx|].
  simpl. destruct (largerOf_cases (liquidityUsd p) (maximumUsd l)) as [[Hgt ->] | [Hgt ->]];
    destruct Hx as [<- | Hx].
  - apply NumFacts.gt_irrefl.
  - apply NumFacts.gt_asym.
    eapply NumFacts.gt_ngt_trans; eauto using liquidityUsd_number.
  - exact Hgt.
  - auto.
Qed.

Lemma gt_NegInfinity a :
  Num.isNaN a = false -> Num.gt a NegInfinity = false -> a = NegInfinity.
Proof. destruct a; simpl; congruence. Qed.

Lemma maximumUsd_attained l :
  l <> [] -> exists x, In x l /\ maximumUsd l = liquidityUsd x.
Proof.
  induction l as [|p l IH]; intros Hne; [congruence|].
  simpl. destruct (largerOf_cases (liquidityUsd p) (maximumUsd l)) as [[Hgt ->] | [Hgt ->]].
  - exists p. auto.
  - destruct l as [|q l].
    + exists p. split; [now left|]. simpl in *.
      symmetry. apply gt_NegInfinity; auto using liquidityUsd_number.
    + destruct IH as (x & Hx & E); [discriminate|].
      exists x. split; [now right | exact E].
Qed.

(** C5.  On a non-empty list of pairs the best-liquidity selection of
    [searchToken] returns a member of the list whose [liquidity.usd]
    (missing read as 0) is the maximum over the list: no pair of the list
    has more, and the value equals [maximumUsd].  Among equal maxima the
    earliest is kept: every pair before the selected one has strictly
    less.  For any permutation of the list the selected pair has the same
    [liquidity.usd].  The selected pair is what [searchToken] returns
    when the response holds the list. *)
Theorem highestLiquidity_is_first_maximum (l : list DexScreenerPair) :
  l <> [] ->
  exists best,
    highestLiquidity l = Some best /\
    In best l /\
    (forall x, In x l -> Num.gt (liquidityUsd x) (liquidityUsd best) = false) /\
    Num.eqb (liquidityUsd best) (maximumUsd l) = true /\
    (exists before after, l = before ++ best :: after /\
       forall x, In x before -> Num.gt (liquidityUsd best) (liquidityUsd x) = true) /\
    (forall l', Permutation l l' ->
       exists best', highestLiquidity l' = Some best' /\
         Num.eqb (liquidityUsd best') (liquidityUsd best) = true) /\
    (forall h tr query,
       readPairs (respond h (requests tr) (searchUrl query)) = Pairs l ->
       fst (searchToken query h tr) = Some best).
Proof.
  intros Hne.
  destruct (highestLiquidity_nonempty l Hne) as [best Hbest].
  exists best.
  pose proof (highestLiquidity_In _ _ Hbest) as Hin.
  pose proof (highestLiquidity_max _ _ Hbest) as Hmax.
  repeat split; auto.
  - destruct (maximumUsd_attained l Hne) as (x & Hx & E).
    rewrite E. apply NumFacts.ngt_antisym; auto using liquidityUsd_number.
    rewrite <- E. now apply maximumUsd_upper.
  - destruct (highestLiquidity_first_max _ _ Hbest) as (l1 & l2 & E & H1 & _).
    exists l1, l2. auto.
  - intros l' Hperm.
    assert (Hne' : l' <> []).
    { intros ->. symmetry in Hperm. apply Permutation_nil in Hperm. congruence. }
    destruct (highestLiquidity_nonempty l' Hne') as [best' Hbest'].
    exists best'. split; [exact Hbest'|].
    apply NumFacts.ngt_antisym; auto using liquidityUsd_number.
    + apply Hmax. eapply Permutation_in; [symmetry; exact Hperm|].
      eapply highestLiquidity_In; eauto.
    + eapply highestLiquidity_max; eauto.
      eapply Permutation_in; eauto.
  - intros h tr query Hread. unfold searchToken, bind, fetch. now rewrite Hread.
Qed.

(** ** Running the single-request operations *)

Lemma requests_app tr tr' : requests (tr ++ tr') = requests tr + requests tr'.
Proof. unfold requests. now rewrite List.filter_app, length_app. Qed.

Lemma searchToken_run query h tr :
  searchToken query h tr =
  match readPairs (respond h (requests tr) (searchUrl query)) with
  | Pairs pairs => (highestLiquidity pairs, tr ++ [Fetch (searchUrl query)])
  | _ => (None, tr ++ [Fetch (searchUrl query);
                       ConsoleError ("DexScreener search error for " ++ query ++ ":")%string])
  end.
Proof.
  unfold searchToken, bind, fetch.
  destruct (readPairs _); unfold consoleError, ret; now rewrite <- ?app_assoc.
Qed.

(** A search issues exactly one request, for [searchUrl query]. *)
Lemma searchToken_trace query h tr :
  exists logs,
    snd (searchToken query h tr) = tr ++ Fetch (searchUrl query) :: logs /\
    requests logs = 0.
Proof.
  rewrite searchToken_run. destruct (readPairs _); simpl; eauto.
Qed.

Example normalizeChain_known :
  normalizeChain "sol" = "solana" /\ normalizeChain "SOL" = "solana" /\
  normalizeChain "UnknownChain" = "unknownchain".
Proof. repeat split. Qed.

Lemma normalizeChain_truthy chain :
  chain <> "" -> Str.truthy (normalizeChain chain) = true.
Proof.
  intros Hne. unfold normalizeChain.
  destruct (property CHAIN_MAP (Str.toUpperCase chain)) as [slug|].
  - destruct (Str.truthy slug) eqn:E; [exact E|]. destruct chain; [congruence | reflexivity].
  - destruct chain; [congruence | reflexivity].
Qed.

Lemma filter_none {A} (f : A -> bool) (l : list A) :
  (forall x, In x l -> f x = false) -> List.filter f l = [].
Proof.
  induction l as [|x l IH]; intros H; [reflexivity|].
  simpl. rewrite (H x) by now left. apply IH. intros y Hy. apply H. now right.
Qed.

Lemma getTokenByAddress_unfiltered h tr addr pairs :
  readPairs (respond h (requests tr) (tokensUrl addr)) = Pairs pairs ->
  getTokenByAddress "" addr h tr = (highestLiquidity pairs, tr ++ [Fetch (tokensUrl addr)]).
Proof.
  intros Hread. unfold getTokenByAddress, bind, fetch. rewrite Hread.
  destruct pairs; reflexivity.
Qed.

(** C1 (amended).  When the response holds a non-empty list of pairs none
    of which is on the normalized chain, [getTokenByAddress] does not
    return absent: for a [chain] other than the empty string it returns
    the first pair of the response, [pairs[0]], whatever its liquidity;
    for the empty string, where no filter applies, it returns a pair of
    maximum liquidity. *)
Theorem getTokenByAddress_fallback_is_first
    (h : Host) (tr : list Event) (chain addr : string)
    (first : DexScreenerPair) (rest : list DexScreenerPair) :
  readPairs (respond h (requests tr) (tokensUrl addr)) = Pairs (first :: rest) ->
  (forall p, In p (first :: rest) -> chainId p <> normalizeChain chain) ->
  (chain <> "" ->
   getTokenByAddress chain addr h tr = (Some first, tr ++ [Fetch (tokensUrl addr)])) /\
  (chain = "" ->
   exists best,
     getTokenByAddress chain addr h tr = (Some best, tr ++ [Fetch (tokensUrl addr)]) /\
     In best (first :: rest) /\
     forall x, In x (first :: rest) ->
               Num.gt (liquidityUsd x) (liquidityUsd best) = false).
Proof.
  intros Hread Hoff. split.
  - intros Hne. unfold getTokenByAddress, bind, fetch. rewrite Hread.
    rewrite normalizeChain_truthy by exact Hne.
    rewrite filter_none; [reflexivity|].
    intros p Hp. apply String.eqb_neq. now apply Hoff.
  - intros ->. rewrite (getTokenByAddress_unfiltered _ _ _ _ Hread).
    destruct (highestLiquidity_nonempty (first :: rest)) as [best Hbest]; [discriminate|].
    exists best. rewrite Hbest. repeat split.
    + eapply highestLiquidity_In; eauto.
    + eapply highestLiquidity_max; eauto.
Qed.

(** C1, as stated, fails: two pairs on another chain, the second with the
    larger liquidity; the first one is returned. *)
Lemma getTokenByAddress_fallback_not_best :
  readPairs (respond Sample.ethOnly 0 (tokensUrl "0xaaa")) = Pairs Sample.ethPairs /\
  (forall p, In p Sample.ethPairs -> chainId p <> normalizeChain "solana") /\
  ~ (exists best,
        fst (getTokenByAddress "solana" "0xaaa" Sample.ethOnly []) = Some best /\
        forall x, In x Sample.ethPairs ->
                  Num.gt (liquidityUsd x) (liquidityUsd best) = false).
Proof.
  split; [reflexivity|]. split.
  - intros p [<- | [<- | []]]; vm_compute; discriminate.
  - intros (best & Hbest & Hmax).
    vm_compute in Hbest. injection Hbest as <-.
    specialize (Hmax Sample.ethLarge (or_intror (or_introl eq_refl))).
    vm_compute in Hmax. discriminate.
Qed.

Lemma normalizeChain_empty : normalizeChain "" = "".
Proof. reflexivity. Qed.

(** C9.  With the empty string as chain, [normalizeChain] returns the
    empty string, no chain filter is applied, and [getTokenByAddress]
    returns the pair of highest liquidity among all returned pairs,
    whatever their chains. *)
Theorem getTokenByAddress_empty_chain
    (h : Host) (tr : list Event) (addr : string) (pairs : list DexScreenerPair) :
  readPairs (respond h (requests tr) (tokensUrl addr)) = Pairs pairs ->
  pairs <> [] ->
  normalizeChain "" = "" /\
  exists best,
    getTokenByAddress "" addr h tr = (Some best, tr ++ [Fetch (tokensUrl addr)]) /\
    highestLiquidity pairs = Some best /\
    In best pairs /\
    (forall x, In x pairs -> Num.gt (liquidityUsd x) (liquidityUsd best) = false).
Proof.
  intros Hread Hne. split; [reflexivity|].
  destruct (highestLiquidity_nonempty pairs Hne) as [best Hbest].
  exists best. split; [|split; [exact Hbest|split]].
  - now rewrite (getTokenByAddress_unfiltered _ _ _ _ Hread), Hbest.
  - eapply highestLiquidity_In; eauto.
  - eapply highestLiquidity_max; eauto.
Qed.

(** ** Social links *)

Lemma readSocial_twitter s x :
  twitter (readSocial s x) =
  if String.eqb (Str.toLowerCase (type x)) "twitter" then Some (socialUrl x) else twitter s.
Proof.
  unfold readSocial.
  destruct (String.eqb _ "twitter"), (String.eqb _ "telegram"), (String.eqb _ "discord");
    reflexivity.
Qed.

Lemma readSocial_telegram s x :
  telegram (readSocial s x) =
  if String.eqb (Str.toLowerCase (type x)) "telegram" then Some (socialUrl x) else telegram s.
Proof.
  unfold readSocial.
  destruct (String.eqb _ "twitter"), (String.eqb _ "telegram"), (String.eqb _ "discord");
    reflexivity.
Qed.

Lemma readSocial_discord s x :
  discord (readSocial s x) =
  if String.eqb (Str.toLowerCase (type x)) "discord" then Some (socialUrl x) else discord s.
Proof.
  unfold readSocial.
  destruct (String.eqb _ "twitter"), (String.eqb _ "telegram"), (String.eqb _ "discord");
    reflexivity.
Qed.

Lemma readSocial_website s x : website (readSocial s x) = website s.
Proof.
  unfold readSocial.
  destruct (String.eqb _ "twitter"), (String.eqb _ "telegram"), (String.eqb _ "discord");
    reflexivity.
Qed.

(** A field that each turn of the loop overwrites on a match holds the
    last match at the end. *)
Lemma fold_last_match (field : TokenSocials -> option string) (kind : string) :
  (forall s x, field (readSocial s x) =
               if String.eqb (Str.toLowerCase (type x)) kind
               then Some (socialUrl x) else field s) ->
  forall entries s,
    field (fold_left readSocial entries s) =
    match lastOfType kind entries with Some u => Some u | None => field s end.
Proof.
  intros Hstep entries. induction entries as [|x entries IH] using rev_ind; intros s.
  - reflexivity.
  - rewrite fold_left_app. simpl fold_left. rewrite Hstep.
    unfold lastOfType. rewrite List.filter_app. simpl List.filter.
    destruct (String.eqb (Str.toLowerCase (type x)) kind).
    + now rewrite last_snoc.
    + rewrite app_nil_r. apply IH.
Qed.

Lemma fold_website entries s : website (fold_left readSocial entries s) = website s.
Proof.
  revert s. induction entries as [|x entries IH]; intros s; [reflexivity|].
  simpl. rewrite IH. apply readSocial_website.
Qed.

Lemma scan_socials (p : DexScreenerPair) :
  let scanned :=
    match info p ≫= socials with
    | Some entries => fold_left readSocial entries noSocials
    | None => noSocials
    end in
  let entries := default [] (info p ≫= socials) in
  twitter scanned = lastOfType "twitter" entries /\
  telegram scanned = lastOfType "telegram" entries /\
  discord scanned = lastOfType "discord" entries /\
  website scanned = None.
Proof.
  cbn zeta. destruct (info p ≫= socials) as [entries|]; simpl default.
  - rewrite (fold_last_match twitter "twitter" readSocial_twitter),
            (fold_last_match telegram "telegram" readSocial_telegram),
            (fold_last_match discord "discord" readSocial_discord), fold_website.
    repeat split; simpl; now destruct (lastOfType _ entries).
  - repeat split.
Qed.

(** C7 (amended).  For every pair, [extractSocials] returns for each of
    the types twitter, telegram and discord the URL of the last
    social-list entry whose type matches case-insensitively (absent if
    none matches); the website is the URL of the first entry of the
    website list when that URL is not the empty string, and is absent
    when the list is missing or empty or when that URL is empty. *)
Theorem extractSocials_last_match_first_website (p : DexScreenerPair) :
  let entries := default [] (info p ≫= socials) in
  twitter (extractSocials p) = lastOfType "twitter" entries /\
  telegram (extractSocials p) = lastOfType "telegram" entries /\
  discord (extractSocials p) = lastOfType "discord" entries /\
  (forall w rest, info p ≫= websites = Some (w :: rest) -> websiteUrl w <> "" ->
                  website (extractSocials p) = Some (websiteUrl w)) /\
  (forall w rest, info p ≫= websites = Some (w :: rest) -> websiteUrl w = "" ->
                  website (extractSocials p) = None) /\
  (info p ≫= websites = None \/ info p ≫= websites = Some [] ->
   website (extractSocials p) = None).
Proof.
  cbn zeta. destruct (scan_socials p) as (Htw & Htg & Hdc & Hws).
  unfold extractSocials.
  destruct (info p ≫= websites) as [[|w rest]|] eqn:Ew.
  - repeat split; auto; discriminate.
  - destruct (websiteUrl w) as [|c u] eqn:Eu; cbn [Str.truthy];
      repeat split; auto;
      try (intros [|]; discriminate);
      intros w' rest' [= <- <-]; intros; simpl; congruence.
  - repeat split; auto; discriminate.
Qed.

(** C7, as stated, fails: a website list whose first entry has the empty
    string as URL gives no website rather than that URL. *)
Lemma extractSocials_empty_url_absent :
  info Sample.blankSite ≫= websites = Some [Sample.blankEntry] /\
  website (extractSocials Sample.blankSite) <> Some (websiteUrl Sample.blankEntry).
Proof. split; [reflexivity | vm_compute; discriminate]. Qed.

(** The example of the specification: the later of two twitter entries
    wins, and an empty website list gives no website. *)
Example extractSocials_last_wins :
  twitter (extractSocials Sample.twoTwitters) = Some "b" /\
  website (extractSocials Sample.twoTwitters) = None.
Proof. split; reflexivity. Qed.

(** ** Metrics *)

Lemma eqb_zero_falsy c : Num.eqb c Num.zero = true -> Num.truthy c = false.
Proof. destruct c; simpl; try discriminate. now intros ->. Qed.

Lemma orElse_zero_eqb v :
  Num.isNaN v = false -> Num.eqb (Num.orElse (Some v) Num.zero) v = true.
Proof.
  intros Hv. simpl. destruct (Num.truthy v) eqn:Et.
  - destruct v; simpl in *; try congruence. apply Qeq_bool_iff. reflexivity.
  - destruct v; simpl in *; try congruence.
    apply negb_false_iff, Qeq_bool_iff in Et.
    apply Qeq_bool_iff. now symmetry.
Qed.

Lemma symbolDiffers_false p ticker :
  symbolDiffers p ticker = false <->
  Str.toUpperCase (symbol (baseToken p)) = Str.toUpperCase ticker.
Proof.
  unfold symbolDiffers. rewrite negb_false_iff. apply String.eqb_eq.
Qed.

Lemma symbolDiffers_true p ticker :
  symbolDiffers p ticker = true <->
  Str.toUpperCase (symbol (baseToken p)) <> Str.toUpperCase ticker.
Proof.
  unfold symbolDiffers. rewrite negb_true_iff. apply String.eqb_neq.
Qed.

Section MetricsFacts.

Variable parseFloat : string -> number.

(** C6.  [pairToMetrics] is defined on every pair.  A [priceUsd] string
    that does not parse gives [priceUsd] 0; a missing [priceChange.h24]
    gives [priceChange24h] 0; a missing 24h volume, liquidity in USD or
    FDV gives 0, and so does the market cap when FDV is missing too;
    when the pair's market cap is missing or zero the metrics' market
    cap is its FDV field, equal to the pair's [fdv] when that is a
    number. *)
Theorem pairToMetrics_defaults (now : Z) (p : DexScreenerPair) :
  let m := pairToMetrics parseFloat now p in
  (Num.isNaN (parseFloat (priceUsd p)) = true -> tm_priceUsd m = Num.zero) /\
  (priceChange p ≫= h24 = None -> tm_priceChange24h m = Num.zero) /\
  (volume p ≫= h24 = None -> tm_volume24h m = Num.zero) /\
  (liquidity p ≫= usd = None -> tm_liquidity m = Num.zero) /\
  (fdv p = None -> tm_fdv m = Num.zero) /\
  (marketCap p = None -> fdv p = None -> tm_marketCap m = Num.zero) /\
  (marketCap p = None \/ (exists c, marketCap p = Some c /\ Num.eqb c Num.zero = true) ->
   tm_marketCap m = tm_fdv m /\
   forall v, fdv p = Some v -> Num.isNaN v = false -> Num.eqb (tm_marketCap m) v = true).
Proof.
  cbn zeta. unfold pairToMetrics. cbn [tm_priceUsd tm_priceChange24h tm_volume24h
    tm_liquidity tm_fdv tm_marketCap].
  split; [|split; [|split; [|split; [|split; [|split]]]]].
  - intros Hnan. destruct (parseFloat (priceUsd p)); simpl in *; congruence.
  - now intros ->.
  - now intros ->.
  - now intros ->.
  - now intros ->.
  - now intros -> ->.
  - intros Hcap.
    assert (E : Num.orElse (marketCap p) (Num.orElse (fdv p) Num.zero)
                = Num.orElse (fdv p) Num.zero).
    { destruct Hcap as [-> | (c & -> & Hc)]; [reflexivity|].
      now rewrite NumFacts.orElse_falsy by now apply eqb_zero_falsy. }
    split; [exact E|].
    intros v Hv Hnum. rewrite E, Hv. now apply orElse_zero_eqb.
Qed.

(** The examples of the specification: market cap 0 with FDV 500 gives
    market cap 500, and an unparseable price gives price 0, whatever
    [parseFloat] makes of other strings. *)
Example pairToMetrics_cap_from_fdv (now : Z) :
  tm_marketCap (pairToMetrics parseFloat now Sample.zeroCap) = Num.ofZ 500.
Proof. reflexivity. Qed.

Lemma project_run p h tr :
  project parseFloat p h tr = (pairToMetrics parseFloat (clock h (List.length tr)) p, tr).
Proof. reflexivity. Qed.

(** C3.  When the first search returns a pair: if its base-token symbol
    equals the ticker case-insensitively, its projection is returned;
    otherwise a second search for the ticker alone is issued, and the
    result is the projection of the pair that retry returns when its
    symbol matches, and absent when the retry returns a mismatching
    pair or nothing. *)
Theorem getTokenMetrics_retry
    (h : Host) (tr : list Event) (ticker : string) (chain : option string)
    (p1 : DexScreenerPair) (tr1 : list Event) :
  searchToken (metricsQuery ticker chain) h tr = (Some p1, tr1) ->
  (Str.toUpperCase (symbol (baseToken p1)) = Str.toUpperCase ticker ->
   getTokenMetrics parseFloat ticker chain h tr
   = (Some (pairToMetrics parseFloat (clock h (List.length tr1)) p1), tr1)) /\
  (Str.toUpperCase (symbol (baseToken p1)) <> Str.toUpperCase ticker ->
   (exists logs,
       snd (getTokenMetrics parseFloat ticker chain h tr)
       = tr1 ++ Fetch (searchUrl ticker) :: logs /\ requests logs = 0) /\
   forall retried tr2,
     searchToken ticker h tr1 = (retried, tr2) ->
     match retried with
     | Some p2 =>
         (Str.toUpperCase (symbol (baseToken p2)) = Str.toUpperCase ticker ->
          getTokenMetrics parseFloat ticker chain h tr
          = (Some (pairToMetrics parseFloat (clock h (List.length tr2)) p2), tr2)) /\
         (Str.toUpperCase (symbol (baseToken p2)) <> Str.toUpperCase ticker ->
          getTokenMetrics parseFloat ticker chain h tr = (None, tr2))
     | None => getTokenMetrics parseFloat ticker chain h tr = (None, tr2)
     end).
Proof.
  intros Hfirst. unfold getTokenMetrics, bind. rewrite Hfirst. split.
  - intros Hsame. apply symbolDiffers_false in Hsame. rewrite Hsame.
    now rewrite project_run.
  - intros Hdiff. apply symbolDiffers_true in Hdiff. rewrite Hdiff. split.
    + destruct (searchToken_trace ticker h tr1) as (logs & Htr & Hreq).
      exists logs. split; [|exact Hreq]. rewrite <- Htr.
      destruct (searchToken ticker h tr1) as [[p2|] tr2]; simpl; [|reflexivity].
      destruct (symbolDiffers p2 ticker); reflexivity.
    + intros retried tr2 ->. destruct retried as [p2|]; [|reflexivity]. split.
      * intros Hsame. apply symbolDiffers_false in Hsame. rewrite Hsame.
        now rewrite project_run.
      * intros Hd. apply symbolDiffers_true in Hd. now rewrite Hd.
Qed.

End MetricsFacts.

(** ** Batch metrics *)

Section BatchMetricsFacts.

Variable parseFloat : string -> number.

Lemma forTokens_app tokens1 tokens2 : forall res h tr,
  forTokens parseFloat (tokens1 ++ tokens2) res h tr =
  let (res1, tr1) := forTokens parseFloat tokens1 res h tr in
  forTokens parseFloat tokens2 res1 h tr1.
Proof.
  induction tokens1 as [|t tokens1 IH]; intros res h tr; simpl.
  - reflexivity.
  - unfold bind. destruct (fetchMetrics parseFloat res t h tr) as [res' tr'].
    apply IH.
Qed.

Lemma fetchMetrics_by_contract res token h tr found trA :
  Str.optTruthy (rq_contract token) && Str.optTruthy (rq_chain token) = true ->
  getTokenByAddress (default "" (rq_chain token)) (default "" (rq_contract token)) h tr
  = (found, trA) ->
  fetchMetrics parseFloat res token h tr =
  (match found with
   | Some p => <[rq_ticker token := pairToMetrics parseFloat (clock h (List.length trA)) p]> res
   | None => res
   end, trA ++ [Sleep 250]).
Proof.
  intros Hpath Hget. unfold fetchMetrics, bind. rewrite Hpath, Hget.
  destruct found; reflexivity.
Qed.

Lemma fetchMetrics_by_ticker res token h tr metrics trB :
  Str.optTruthy (rq_contract token) && Str.optTruthy (rq_chain token) = false ->
  getTokenMetrics parseFloat (rq_ticker token) (rq_chain token) h tr = (metrics, trB) ->
  fetchMetrics parseFloat res token h tr =
  (match metrics with
   | Some m => <[rq_ticker token := m]> res
   | None => res
   end, trB ++ [Sleep 250]).
Proof.
  intros Hpath Hget. unfold fetchMetrics, bind. rewrite Hpath, Hget.
  destruct metrics; reflexivity.
Qed.

(** A turn of the loop adds no key but the ticker of its request. *)
Lemma fetchMetrics_keys res token h tr k :
  is_Some (fst (fetchMetrics parseFloat res token h tr) !! k) ->
  k = rq_ticker token \/ is_Some (res !! k).
Proof.
  destruct (Str.optTruthy (rq_contract token) && Str.optTruthy (rq_chain token)) eqn:Hpath.
  - destruct (getTokenByAddress (default "" (rq_chain token))
                (default "" (rq_contract token)) h tr) as [found trA] eqn:Hget.
    rewrite (fetchMetrics_by_contract _ _ _ _ _ _ Hpath Hget). simpl.
    destruct found; [|auto].
    destruct (decide (rq_ticker token = k)) as [<-|Hne]; [auto|].
    rewrite lookup_insert_ne by exact Hne. auto.
  - destruct (getTokenMetrics parseFloat (rq_ticker token) (rq_chain token) h tr)
      as [metrics trB] eqn:Hget.
    rewrite (fetchMetrics_by_ticker _ _ _ _ _ _ Hpath Hget). simpl.
    destruct metrics; [|auto].
    destruct (decide (rq_ticker token = k)) as [<-|Hne]; [auto|].
    rewrite lookup_insert_ne by exact Hne. auto.
Qed.

Lemma forTokens_keys tokens : forall res h tr k,
  is_Some (fst (forTokens parseFloat tokens res h tr) !! k) ->
  (exists token, In token tokens /\ rq_ticker token = k) \/ is_Some (res !! k).
Proof.
  induction tokens as [|t tokens IH]; intros res h tr k Hk; simpl in Hk.
  - now right.
  - unfold bind in Hk.
    destruct (fetchMetrics parseFloat res t h tr) as [res' tr'] eqn:Hstep.
    destruct (IH _ _ _ _ Hk) as [(token & Hin & <-) | Hres'].
    + left. exists token. split; [now right | reflexivity].
    + assert (Hfst : res' = fst (fetchMetrics parseFloat res t h tr)) by now rewrite Hstep.
      rewrite Hfst in Hres'. apply fetchMetrics_keys in Hres'.
      destruct Hres' as [-> | Hres]; [|now right].
      left. exists t. split; [now left | reflexivity].
Qed.

(** A turn of the loop leaves every key but its request's ticker alone. *)
Lemma fetchMetrics_other res token h tr k :
  rq_ticker token <> k ->
  fst (fetchMetrics parseFloat res token h tr) !! k = res !! k.
Proof.
  intros Hne.
  destruct (Str.optTruthy (rq_contract token) && Str.optTruthy (rq_chain token)) eqn:Hpath.
  - destruct (getTokenByAddress (default "" (rq_chain token))
                (default "" (rq_contract token)) h tr) as [found trA] eqn:Hget.
    rewrite (fetchMetrics_by_contract _ _ _ _ _ _ Hpath Hget). simpl.
    destruct found; [|reflexivity]. now rewrite lookup_insert_ne.
  - destruct (getTokenMetrics parseFloat (rq_ticker token) (rq_chain token) h tr)
      as [metrics trB] eqn:Hget.
    rewrite (fetchMetrics_by_ticker _ _ _ _ _ _ Hpath Hget). simpl.
    destruct metrics; [|reflexivity]. now rewrite lookup_insert_ne.
Qed.

Lemma forTokens_other tokens : forall res h tr k,
  (forall t, In t tokens -> rq_ticker t <> k) ->
  fst (forTokens parseFloat tokens res h tr) !! k = res !! k.
Proof.
  induction tokens as [|t tokens IH]; intros res h tr k Hother; [reflexivity|].
  simpl. unfold bind.
  destruct (fetchMetrics parseFloat res t h tr) as [res' tr'] eqn:Hstep.
  rewrite IH by (intros t' Ht'; apply Hother; now right).
  replace res' with (fst (fetchMetrics parseFloat res t h tr)) by now rewrite Hstep.
  apply fetchMetrics_other. apply Hother. now left.
Qed.

(** C10.  [batchGetMetrics] keys its result by the ticker of each
    request as given: every key of the result is the ticker of some
    request; a successful request puts its metrics under its own ticker,
    replacing whatever the requests before it left there, and they stay
    until a later request with the same ticker succeeds; on the
    contract-plus-chain path that key is the request's ticker while the
    stored metrics carry the symbol of the fetched pair. *)
Theorem batchGetMetrics_keyed_by_request_ticker
    (h : Host) (tr : list Event) (before : list MetricsRequest)
    (token : MetricsRequest) (after : list MetricsRequest)
    (res : gmap string TokenMetrics) (tr1 : list Event) :
  batchGetMetrics parseFloat before h tr = (res, tr1) ->
  (forall t, In t after -> rq_ticker t <> rq_ticker token) ->
  let final := fst (batchGetMetrics parseFloat (before ++ token :: after) h tr) in
  (forall k, is_Some (final !! k) ->
             exists t, In t (before ++ token :: after) /\ rq_ticker t = k) /\
  (Str.optTruthy (rq_contract token) && Str.optTruthy (rq_chain token) = true ->
   forall p trA,
     getTokenByAddress (default "" (rq_chain token)) (default "" (rq_contract token)) h tr1
     = (Some p, trA) ->
     let m := pairToMetrics parseFloat (clock h (List.length trA)) p in
     final !! rq_ticker token = Some m /\
     tm_ticker m = symbol (baseToken p)) /\
  (Str.optTruthy (rq_contract token) && Str.optTruthy (rq_chain token) = false ->
   forall m trB,
     getTokenMetrics parseFloat (rq_ticker token) (rq_chain token) h tr1 = (Some m, trB) ->
     final !! rq_ticker token = Some m).
Proof.
  intros Hrun Hafter. cbn zeta. unfold batchGetMetrics in *.
  split; [|split].
  - intros k Hk. apply forTokens_keys in Hk. destruct Hk as [Hk | Hk]; [exact Hk|].
    rewrite lookup_empty in Hk. destruct Hk as [? Hk]. discriminate.
  - intros Hpath p trA Hget.
    rewrite forTokens_app, Hrun. simpl. unfold bind.
    rewrite (fetchMetrics_by_contract _ _ _ _ _ _ Hpath Hget).
    rewrite forTokens_other by exact Hafter.
    split; [apply lookup_insert_eq | reflexivity].
  - intros Hpath m trB Hget.
    rewrite forTokens_app, Hrun. simpl. unfold bind.
    rewrite (fetchMetrics_by_ticker _ _ _ _ _ _ Hpath Hget).
    rewrite forTokens_other by exact Hafter.
    apply lookup_insert_eq.
Qed.

End BatchMetricsFacts.

(** ** Chunking *)

Lemma slice_batch {A} i (l : list A) :
  slice i (i + BATCH_SIZE) l = take BATCH_SIZE (drop i l).
Proof. unfold slice. f_equal. lia. Qed.

(** The loop stops on its own condition: any fuel that covers the
    addresses still to be cut gives the same chunks. *)
Lemma sliceFrom_enough fuel : forall fuel' i l,
  List.length l - i <= fuel -> List.length l - i <= fuel' ->
  sliceFrom fuel i l = sliceFrom fuel' i l.
Proof.
  induction fuel as [|fuel IH]; intros fuel' i l H H'.
  - destruct fuel' as [|fuel']; [reflexivity|]. simpl.
    destruct (Nat.ltb_spec i (List.length l)); [lia | reflexivity].
  - destruct fuel' as [|fuel']; simpl.
    + destruct (Nat.ltb_spec i (List.length l)); [lia | reflexivity].
    + destruct (Nat.ltb_spec i (List.length l)); [|reflexivity].
      f_equal. apply IH; unfold BATCH_SIZE; lia.
Qed.

Lemma sliceFrom_concat fuel : forall i (l : list string),
  List.length l - i <= fuel -> concat (sliceFrom fuel i l) = drop i l.
Proof.
  induction fuel as [|fuel IH]; intros i l H; simpl.
  - symmetry. apply drop_ge. lia.
  - destruct (Nat.ltb_spec i (List.length l)).
    + simpl. rewrite IH by (unfold BATCH_SIZE; lia).
      rewrite slice_batch, <- drop_drop. apply take_drop.
    + symmetry. apply drop_ge. lia.
Qed.

Lemma sliceFrom_lookup fuel : forall i (l : list string) k b,
  sliceFrom fuel i l !! k = Some b ->
  b = take BATCH_SIZE (drop (i + BATCH_SIZE * k) l) /\ i + BATCH_SIZE * k < List.length l.
Proof.
  induction fuel as [|fuel IH]; intros i l k b H; simpl in H; [discriminate|].
  destruct (Nat.ltb_spec i (List.length l)); [|discriminate].
  destruct k as [|k]; simpl in H.
  - injection H as <-. rewrite slice_batch, Nat.mul_0_r, Nat.add_0_r. auto.
  - apply IH in H. destruct H as [-> Hlt].
    replace (i + BATCH_SIZE * S k) with (i + BATCH_SIZE + BATCH_SIZE * k) by lia. auto.
Qed.

Lemma sliceFrom_lengths fuel : forall i (l : list string),
  map List.length (sliceFrom fuel i l) = sliceLengths fuel i (List.length l).
Proof.
  induction fuel as [|fuel IH]; intros i l; simpl; [reflexivity|].
  destruct (i <? List.length l); [|reflexivity].
  simpl. rewrite IH. f_equal.
  rewrite slice_batch, length_take, length_drop. reflexivity.
Qed.

Lemma makeBatches_concat addresses : concat (makeBatches addresses) = addresses.
Proof. unfold makeBatches. rewrite sliceFrom_concat by lia. apply drop_0. Qed.

Lemma makeBatches_lookup addresses k b :
  makeBatches addresses !! k = Some b ->
  b = take BATCH_SIZE (drop (BATCH_SIZE * k) addresses) /\
  1 <= List.length b <= BATCH_SIZE.
Proof.
  intros H. apply sliceFrom_lookup in H. destruct H as [-> Hlt]. simpl in Hlt |- *.
  split; [reflexivity|].
  rewrite length_take, length_drop. unfold BATCH_SIZE in *. lia.
Qed.

Lemma makeBatches_nil : makeBatches [] = [].
Proof. reflexivity. Qed.

(** ** Grouping and picking *)

Lemma groupPair_lookup nc pairs : forall g a,
  fold_left (groupPair nc) pairs g !! a =
  match groupOf nc a pairs with
  | [] => g !! a
  | p :: l => Some (default [] (g !! a) ++ p :: l)
  end.
Proof.
  induction pairs as [|p pairs IH]; intros g a; [reflexivity|].
  simpl fold_left. rewrite IH. unfold groupOf, groupPair. simpl List.filter.
  destruct (offChain nc p); simpl negb; cbn [andb]; [reflexivity|].
  destruct (String.eqb_spec (address (baseToken p)) a) as [-> | Hne].
  - rewrite lookup_insert_eq. simpl default.
    destruct (List.filter _ pairs); [reflexivity|].
    now rewrite <- app_assoc.
  - now rewrite lookup_insert_ne by exact Hne.
Qed.

Lemma groups_lookup nc pairs a :
  fold_left (groupPair nc) pairs ∅ !! a =
  match groupOf nc a pairs with [] => None | p :: l => Some (p :: l) end.
Proof. rewrite groupPair_lookup, lookup_empty. reflexivity. Qed.

Lemma pickBest_lookup (results : gmap string DexScreenerPair)
    (groups : gmap string (list DexScreenerPair)) (a : string) :
  map_fold pickBest results groups !! a =
  match groups !! a ≫= highestLiquidity with
  | Some best => Some best
  | None => results !! a
  end.
Proof.
  revert a.
  apply (map_fold_weak_ind
           (fun (r : gmap string DexScreenerPair) (m : gmap string (list DexScreenerPair)) =>
              forall a, r !! a = match m !! a ≫= highestLiquidity with
                                 | Some best => Some best
                                 | None => results !! a
                                 end)).
  - intros a. now rewrite lookup_empty.
  - intros i x m r Hfresh IH a. unfold pickBest.
    destruct (decide (i = a)) as [<- | Hne].
    + rewrite lookup_insert_eq. simpl.
      destruct (highestLiquidity x) as [best|].
      * now rewrite lookup_insert_eq.
      * rewrite IH, Hfresh. reflexivity.
    + rewrite (lookup_insert_ne m) by exact Hne.
      destruct (highestLiquidity x) as [best|]; [|apply IH].
      rewrite lookup_insert_ne by exact Hne. apply IH.
Qed.

(** After one turn: a key holds the best pair of its group, or what it
    held before when the response has no pair for it. *)
Lemma batchResults_lookup nc pairs results a :
  batchResults nc (Pairs pairs) results !! a =
  match highestLiquidity (groupOf nc a pairs) with
  | Some best => Some best
  | None => results !! a
  end.
Proof.
  unfold batchResults. rewrite pickBest_lookup, groups_lookup.
  destruct (groupOf nc a pairs); reflexivity.
Qed.

Lemma groupOf_In nc a pairs p :
  In p (groupOf nc a pairs) <->
  In p pairs /\ offChain nc p = false /\ address (baseToken p) = a.
Proof.
  unfold groupOf. rewrite filter_In, andb_true_iff, negb_true_iff, String.eqb_eq.
  tauto.
Qed.

(** ** Running the batch loop *)

Lemma requests_batchEvents n batch r : requests (batchEvents n batch r) = 1.
Proof. unfold requests. destruct r; simpl; try reflexivity. now destruct (1 <? n). Qed.

Lemma fetchBatch_run n nc results batch h tr :
  fetchBatch n nc results batch h tr =
  (batchResults nc (answer h (requests tr) batch) results,
   tr ++ batchEvents n batch (answer h (requests tr) batch)).
Proof.
  unfold fetchBatch, bind, fetch, answer, batchEvents, batchResults.
  destruct (readPairs _) as [|status|pairs]; [| |destruct (1 <? n)];
    unfold consoleError, setTimeout, ret; rewrite <- ?app_assoc; reflexivity.
Qed.

Lemma forBatches_run n nc batches : forall results h tr,
  forBatches n nc batches results h tr =
  (batchesResults h nc (requests tr) batches results,
   tr ++ concat (batchesSegments h n (requests tr) batches)).
Proof.
  induction batches as [|batch rest IH]; intros results h tr; simpl.
  - unfold ret. now rewrite app_nil_r.
  - unfold bind. rewrite fetchBatch_run, IH.
    rewrite requests_app, requests_batchEvents, Nat.add_1_r.
    now rewrite <- app_assoc.
Qed.

Lemma getTokensByAddresses_run addresses chainFilter h tr :
  getTokensByAddresses addresses chainFilter h tr =
  (batchesResults h (normalizedFilter chainFilter) (requests tr) (makeBatches addresses) ∅,
   tr ++ concat (batchesSegments h (List.length (makeBatches addresses)) (requests tr)
                   (makeBatches addresses))).
Proof.
  destruct addresses as [|a addresses].
  - unfold getTokensByAddresses, ret. simpl. now rewrite app_nil_r.
  - unfold getTokensByAddresses. apply forBatches_run.
Qed.

Lemma batchesSegments_length h n batches : forall k,
  List.length (batchesSegments h n k batches) = List.length batches.
Proof. induction batches; intros k; simpl; auto. Qed.

Lemma batchesSegments_lookup h n batches : forall k i b,
  batches !! i = Some b ->
  batchesSegments h n k batches !! i = Some (batchEvents n b (answer h (k + i) b)).
Proof.
  induction batches as [|batch rest IH]; intros k i b H; [discriminate|].
  destruct i as [|i]; simpl in *.
  - injection H as ->. now rewrite Nat.add_0_r.
  - rewrite (IH (S k) i b H). do 3 f_equal. lia.
Qed.

Lemma batchesSegments_requests h n batches : forall k,
  List.filter isFetch (concat (batchesSegments h n k batches)) =
  map (fun b => Fetch (batchUrl b)) batches.
Proof.
  induction batches as [|batch rest IH]; intros k; [reflexivity|].
  cbn [batchesSegments concat]. rewrite List.filter_app, IH.
  unfold batchEvents. destruct (answer h k batch); [| |destruct (1 <? n)]; reflexivity.
Qed.

Lemma batchesSegments_unpaused h n batches : forall k e,
  n <= 1 -> In e (concat (batchesSegments h n k batches)) -> e <> Sleep 100.
Proof.
  induction batches as [|batch rest IH]; intros k e Hn He; [destruct He|].
  simpl in He. destruct He as [<- | He]; [discriminate|].
  apply in_app_or in He. destruct He as [He | He]; [|eapply IH; eauto].
  destruct (answer h k batch); simpl in He.
  - destruct He as [<- | []]. discriminate.
  - destruct He.
  - destruct (Nat.ltb_spec 1 n); [lia | destruct He].
Qed.

(** A key once set stays set. *)
Lemma batchResults_keeps nc r results a :
  is_Some (results !! a) -> is_Some (batchResults nc r results !! a).
Proof.
  intros Hs. destruct r as [| |pairs]; try exact Hs.
  rewrite batchResults_lookup. destruct (highestLiquidity _); eauto.
Qed.

Lemma batchesResults_keeps h nc batches : forall k results a,
  is_Some (results !! a) -> is_Some (batchesResults h nc k batches results !! a).
Proof.
  induction batches as [|batch rest IH]; intros k results a Hs; [exact Hs|].
  simpl. apply IH. now apply batchResults_keeps.
Qed.

(** Whatever a chunk's response files under an address is in the final
    map, whatever happens to the other chunks. *)
Lemma batchesResults_present h nc batches : forall k results i b pairs p,
  batches !! i = Some b ->
  answer h (k + i) b = Pairs pairs ->
  In p pairs -> offChain nc p = false ->
  is_Some (batchesResults h nc k batches results !! address (baseToken p)).
Proof.
  induction batches as [|batch rest IH]; intros k results i b pairs p Hb Ha Hp Hon;
    [discriminate|].
  destruct i as [|i]; simpl in *.
  - injection Hb as ->. rewrite Nat.add_0_r in Ha. rewrite Ha.
    apply batchesResults_keeps. rewrite batchResults_lookup.
    assert (Hin : In p (groupOf nc (address (baseToken p)) pairs)).
    { apply groupOf_In. auto. }
    destruct (highestLiquidity_nonempty (groupOf nc (address (baseToken p)) pairs))
      as [best ->]; [|eauto].
    intros E. rewrite E in Hin. destruct Hin.
  - eapply (IH (S k)); eauto. now replace (S k + i) with (k + S i) by lia.
Qed.

(** Every entry of the final map was there at the start or was filed
    under its key from the response of some chunk. *)
Lemma batchesResults_origin h nc batches : forall k results a p,
  batchesResults h nc k batches results !! a = Some p ->
  results !! a = Some p \/
  exists i b pairs,
    batches !! i = Some b /\ answer h (k + i) b = Pairs pairs /\
    In p pairs /\ offChain nc p = false /\ address (baseToken p) = a.
Proof.
  induction batches as [|batch rest IH]; intros k results a p H; [now left|].
  simpl in H. apply IH in H. destruct H as [H | (i & b & pairs & Hb & Ha & Hrest)].
  - destruct (answer h k batch) as [| |pairs] eqn:Ha; try (now left).
    rewrite batchResults_lookup in H.
    destruct (highestLiquidity (groupOf nc a pairs)) as [best|] eqn:Hbest; [|now left].
    injection H as ->. right. exists 0, batch, pairs.
    rewrite Nat.add_0_r. split; [reflexivity|]. split; [exact Ha|].
    apply groupOf_In. eapply highestLiquidity_In; eauto.
  - right. exists (S i), b, pairs. split; [exact Hb|].
    split; [|exact Hrest]. now replace (k + S i) with (S k + i) by lia.
Qed.

(** ** Batch lookup by address *)

(** C4.  The address list is cut into consecutive chunks: chunk [i] is
    the addresses from index [30 i] up to [30 i + 30], never empty and
    never longer than 30, and the chunks together are the list; 65
    addresses give chunks of 30, 30 and 5.  One request is issued per
    chunk, in order, for the chunk's addresses joined by commas.  Every
    entry of the result comes from a chunk whose request was read, and
    whatever such a chunk files under an address is in the result
    whether or not other chunks failed. *)
Theorem getTokensByAddresses_chunked
    (h : Host) (tr : list Event) (addresses : list string) (chainFilter : option string) :
  let batches := makeBatches addresses in
  let run := getTokensByAddresses addresses chainFilter h tr in
  concat batches = addresses /\
  (forall i b, batches !! i = Some b ->
               b = take 30 (drop (30 * i) addresses) /\ 1 <= List.length b <= 30) /\
  (List.length addresses = 65 -> map List.length batches = [30; 30; 5]) /\
  (exists events,
      snd run = tr ++ events /\
      List.filter isFetch events
      = map (fun b => Fetch (tokensUrl (Str.join "," b))) batches) /\
  (forall i b pairs p,
      batches !! i = Some b ->
      answer h (requests tr + i) b = Pairs pairs ->
      In p pairs -> offChain (normalizedFilter chainFilter) p = false ->
      is_Some (fst run !! address (baseToken p))) /\
  (forall a p,
      fst run !! a = Some p ->
      exists i b pairs,
        batches !! i = Some b /\ answer h (requests tr + i) b = Pairs pairs /\ In p pairs).
Proof.
  cbn zeta. rewrite getTokensByAddresses_run. cbn [fst snd].
  split; [apply makeBatches_concat|].
  split; [intros i b Hb; now apply makeBatches_lookup|].
  split.
  { intros Hlen. unfold makeBatches. rewrite sliceFrom_lengths, Hlen. reflexivity. }
  split.
  { eexists. split; [reflexivity|]. apply batchesSegments_requests. }
  split.
  { intros i b pairs p Hb Ha Hp Hon. eapply batchesResults_present; eauto. }
  intros a p Hfinal. apply batchesResults_origin in Hfinal.
  destruct Hfinal as [Hempty | (i & b & pairs & Hb & Ha & Hp & _)].
  - rewrite lookup_empty in Hempty. discriminate.
  - exists i, b, pairs. auto.
Qed.

(** The example of the specification: 65 addresses, the second of the
    three requests fails, and the pairs of the first and third chunks
    are in the result. *)
Example getTokensByAddresses_partial :
  map List.length (makeBatches Sample.addresses65) = [30; 30; 5] /\
  fst (getTokensByAddresses Sample.addresses65 None Sample.secondFails []) !! "0xaaa"
  = Some Sample.ethSmall /\
  fst (getTokensByAddresses Sample.addresses65 None Sample.secondFails []) !! "So1"
  = Some Sample.solNone /\
  requests (snd (getTokensByAddresses Sample.addresses65 None Sample.secondFails [])) = 3.
Proof. repeat split; vm_compute; reflexivity. Qed.

Lemma offChain_on c p :
  c <> "" -> offChain (normalizedFilter (Some c)) p = false ->
  chainId p = normalizeChain c.
Proof.
  intros Hne. unfold normalizedFilter, offChain.
  destruct c as [|ch c]; [congruence|]. cbn [Str.truthy].
  rewrite normalizeChain_truthy by discriminate. simpl.
  rewrite negb_false_iff. apply String.eqb_eq.
Qed.

(** C8.  With a chain filter that is not the empty string, every pair of
    the result map is on the normalized chain and is keyed by its own
    base-token address; an address all of whose returned pairs are on
    other chains has no entry: no pair of another chain is used
    instead. *)
Theorem getTokensByAddresses_chain_filter
    (h : Host) (tr : list Event) (addresses : list string) (chain : string) :
  chain <> "" ->
  let batches := makeBatches addresses in
  let final := fst (getTokensByAddresses addresses (Some chain) h tr) in
  (forall a p, final !! a = Some p ->
               chainId p = normalizeChain chain /\ address (baseToken p) = a) /\
  (forall a,
      (forall i b pairs p,
          batches !! i = Some b -> answer h (requests tr + i) b = Pairs pairs ->
          In p pairs -> address (baseToken p) = a -> chainId p <> normalizeChain chain) ->
      final !! a = None).
Proof.
  intros Hne. cbn zeta. rewrite getTokensByAddresses_run. cbn [fst].
  assert (Horigin : forall a p,
    batchesResults h (normalizedFilter (Some chain)) (requests tr) (makeBatches addresses) ∅
      !! a = Some p ->
    exists i b pairs,
      makeBatches addresses !! i = Some b /\ answer h (requests tr + i) b = Pairs pairs /\
      In p pairs /\ chainId p = normalizeChain chain /\ address (baseToken p) = a).
  { intros a p Hfinal. apply batchesResults_origin in Hfinal.
    destruct Hfinal as [Hempty | (i & b & pairs & Hb & Ha & Hp & Hon & Haddr)].
    - rewrite lookup_empty in Hempty. discriminate.
    - exists i, b, pairs. repeat split; auto. now apply offChain_on. }
  split.
  - intros a p Hfinal. destruct (Horigin a p Hfinal) as (_ & _ & _ & _ & _ & _ & Hc & Ha).
    auto.
  - intros a Hoff.
    destruct (batchesResults _ _ _ _ _ !! a) as [p|] eqn:Hfinal; [|reflexivity].
    destruct (Horigin a p Hfinal) as (i & b & pairs & Hb & Ha & Hp & Hc & Haddr).
    exfalso. eapply Hoff; eauto.
Qed.

(** C8, as stated, fails for the empty string as filter: nothing is
    filtered, and an address whose only pair is on Ethereum is in the
    result although "ethereum" is not the normalized filter. *)
Lemma getTokensByAddresses_empty_filter_keeps_all :
  normalizeChain "" = "" /\
  chainId Sample.ethSmall <> normalizeChain "" /\
  fst (getTokensByAddresses ["0xaaa"; "So1"] (Some "") Sample.twoChains []) !! "0xaaa"
  = Some Sample.ethSmall.
Proof. repeat split; vm_compute; discriminate || reflexivity. Qed.

(** C2 (amended).  The events of a batch lookup are one segment per
    chunk, each holding exactly one request, for that chunk.  With more
    than one chunk, the segment of every chunk whose request was read is
    that request followed by a 100ms pause, the last chunk included;
    with a single chunk there is no pause. *)
Theorem getTokensByAddresses_pauses
    (h : Host) (tr : list Event) (addresses : list string) (chainFilter : option string) :
  let batches := makeBatches addresses in
  exists segments,
    snd (getTokensByAddresses addresses chainFilter h tr) = tr ++ concat segments /\
    List.length segments = List.length batches /\
    (forall i b, batches !! i = Some b ->
       exists seg,
         segments !! i = Some seg /\
         head seg = Some (Fetch (batchUrl b)) /\
         requests seg = 1 /\
         forall pairs,
           answer h (requests tr + i) b = Pairs pairs ->
           1 < List.length batches ->
           seg = [Fetch (batchUrl b); Sleep 100]) /\
    (List.length batches <= 1 -> forall e, In e (concat segments) -> e <> Sleep 100).
Proof.
  cbn zeta. rewrite getTokensByAddresses_run. cbn [snd].
  eexists. split; [reflexivity|].
  split; [apply batchesSegments_length|]. split.
  - intros i b Hb.
    exists (batchEvents (List.length (makeBatches addresses)) b (answer h (requests tr + i) b)).
    split; [apply batchesSegments_lookup; exact Hb|].
    split; [reflexivity|]. split; [apply requests_batchEvents|].
    intros pairs -> Hmany. unfold batchEvents.
    destruct (Nat.ltb_spec 1 (List.length (makeBatches addresses))); [reflexivity | lia].
  - intros Hone e He. eapply batchesSegments_unpaused; eauto.
Qed.

(** C2, as stated, fails twice over on 31 addresses: when both requests
    are read there is a pause after the last one too, and when the first
    request fails there is no pause between the two requests. *)
Lemma getTokensByAddresses_pause_not_between :
  List.length (makeBatches Sample.addresses31) = 2 /\
  schedule (snd (getTokensByAddresses Sample.addresses31 None Sample.allEmpty []))
  <> pausedBetween (map batchUrl (makeBatches Sample.addresses31)) /\
  schedule (snd (getTokensByAddresses Sample.addresses31 None Sample.firstFails []))
  <> pausedBetween (map batchUrl (makeBatches Sample.addresses31)).
Proof. repeat split; vm_compute; discriminate. Qed.

(** ** The theorems at work on the sample data *)

Lemma getTokenByAddress_fallback_is_first_witness :
  getTokenByAddress "solana" "0xaaa" Sample.ethOnly []
  = (Some Sample.ethSmall, [Fetch (tokensUrl "0xaaa")]).
Proof.
  apply (getTokenByAddress_fallback_is_first
           Sample.ethOnly [] "solana" "0xaaa" Sample.ethSmall [Sample.ethLarge]).
  - reflexivity.
  - intros p [<- | [<- | []]]; vm_compute; discriminate.
  - discriminate.
Defined.

Lemma getTokensByAddresses_pauses_witness :
  exists segments,
    snd (getTokensByAddresses Sample.addresses31 None Sample.allEmpty [])
    = [] ++ concat segments /\
    segments !! 1 = Some [Fetch (batchUrl ["So1"]); Sleep 100].
Proof.
  destruct (getTokensByAddresses_pauses Sample.allEmpty [] Sample.addresses31 None)
    as (segments & Htrace & _ & Hseg & _).
  exists segments. split; [exact Htrace|].
  destruct (Hseg 1 ["So1"] eq_refl) as (seg & Hlookup & _ & _ & Hpause).
  rewrite Hlookup. f_equal. apply (Hpause []); [reflexivity | vm_compute; lia].
Defined.

Lemma getTokenMetrics_retry_witness :
  getTokenMetrics Sample.parseDigits "XXX" (Some "solana") Sample.fuzzyThenExact []
  = (Some (pairToMetrics Sample.parseDigits 2 Sample.exact),
     [Fetch (searchUrl "XXX solana"); Fetch (searchUrl "XXX")]).
Proof.
  destruct (getTokenMetrics_retry Sample.parseDigits Sample.fuzzyThenExact []
              "XXX" (Some "solana") Sample.fuzzy [Fetch (searchUrl "XXX solana")] eq_refl)
    as [_ Hretry].
  destruct Hretry as [_ Hsecond]; [vm_compute; discriminate|].
  exact (proj1 (Hsecond (Some Sample.exact)
                  [Fetch (searchUrl "XXX solana"); Fetch (searchUrl "XXX")] eq_refl)
           eq_refl).
Defined.

Lemma getTokensByAddresses_chunked_witness :
  is_Some (fst (getTokensByAddresses Sample.addresses65 None Sample.secondFails [])
             !! "So1").
Proof.
  destruct (getTokensByAddresses_chunked Sample.secondFails [] Sample.addresses65 None)
    as (_ & _ & _ & _ & Hpresent & _).
  apply (Hpresent 2 (repeat "So1" 5) [Sample.solNone] Sample.solNone);
    [reflexivity | reflexivity | now left | reflexivity].
Defined.

Lemma highestLiquidity_is_first_maximum_witness :
  exists best,
    highestLiquidity Sample.threePairs = Some best /\
    Num.eqb (liquidityUsd best) (maximumUsd Sample.threePairs) = true /\
    exists best',
      highestLiquidity (rev Sample.threePairs) = Some best' /\
      Num.eqb (liquidityUsd best') (liquidityUsd best) = true.
Proof.
  destruct (highestLiquidity_is_first_maximum Sample.threePairs)
    as (best & Hbest & _ & _ & Hmax & _ & Hperm & _); [discriminate|].
  exists best. split; [exact Hbest|]. split; [exact Hmax|].
  apply Hperm. apply Permutation_rev.
Defined.

Lemma pairToMetrics_defaults_witness :
  tm_priceUsd (pairToMetrics Sample.parseDigits 0 Sample.zeroCap) = Num.zero /\
  Num.eqb (tm_marketCap (pairToMetrics Sample.parseDigits 0 Sample.zeroCap)) (Num.ofZ 500)
  = true.
Proof.
  destruct (pairToMetrics_defaults Sample.parseDigits 0 Sample.zeroCap)
    as (Hprice & _ & _ & _ & _ & _ & Hcap).
  split; [apply Hprice; reflexivity|].
  destruct Hcap as [_ Hfdv].
  - right. exists (Num.ofZ 0). split; reflexivity.
  - apply Hfdv; reflexivity.
Defined.

Lemma extractSocials_last_match_first_website_witness :
  twitter (extractSocials Sample.twoTwitters) = Some "b" /\
  website (extractSocials Sample.blankSite) = None /\
  website (extractSocials Sample.oneSite) = Some "https://aaa.example".
Proof.
  split; [|split].
  - exact (proj1 (extractSocials_last_match_first_website Sample.twoTwitters)).
  - destruct (extractSocials_last_match_first_website Sample.blankSite)
      as (_ & _ & _ & _ & Hblank & _).
    apply (Hblank Sample.blankEntry []); reflexivity.
  - destruct (extractSocials_last_match_first_website Sample.oneSite)
      as (_ & _ & _ & Hfirst & _).
    apply (Hfirst Sample.siteEntry []); [reflexivity | discriminate].
Defined.

Lemma getTokensByAddresses_chain_filter_witness :
  fst (getTokensByAddresses ["0xaaa"; "So1"] (Some "sol") Sample.twoChains []) !! "0xaaa"
  = None.
Proof.
  destruct (getTokensByAddresses_chain_filter Sample.twoChains [] ["0xaaa"; "So1"] "sol")
    as [_ Habsent]; [discriminate|].
  apply Habsent. intros i b pairs p Hb Ha Hp Haddr.
  destruct i as [|[|i]]; [|discriminate..].
  injection Hb as <-. vm_compute in Ha. injection Ha as <-.
  destruct Hp as [<- | [<- | []]]; vm_compute; discriminate.
Defined.

Lemma getTokenByAddress_empty_chain_witness :
  getTokenByAddress "" "0xaaa" Sample.ethOnly []
  = (Some Sample.ethLarge, [Fetch (tokensUrl "0xaaa")]).
Proof.
  destruct (getTokenByAddress_empty_chain Sample.ethOnly [] "0xaaa" Sample.ethPairs)
    as (_ & best & Hrun & Hbest & _); [reflexivity | discriminate |].
  injection Hbest as <-. exact Hrun.
Defined.

Lemma batchGetMetrics_keyed_by_request_ticker_witness :
  fst (batchGetMetrics Sample.parseDigits [Sample.firstX; Sample.secondX; Sample.thirdY]
         Sample.twoAnswers []) !! "X"
  = Some (pairToMetrics Sample.parseDigits 3 Sample.ethTied) /\
  tm_ticker (pairToMetrics Sample.parseDigits 3 Sample.ethTied) = "BBB".
Proof.
  destruct (batchGetMetrics_keyed_by_request_ticker Sample.parseDigits Sample.twoAnswers []
              [Sample.firstX] Sample.secondX [Sample.thirdY]
              (fst (batchGetMetrics Sample.parseDigits [Sample.firstX] Sample.twoAnswers []))
              [Fetch (tokensUrl "0xaaa"); Sleep 250])
    as (_ & Hcontract & _).
  - reflexivity.
  - intros t [<- | []]. discriminate.
  - destruct (Hcontract eq_refl Sample.ethTied
                [Fetch (tokensUrl "0xaaa"); Sleep 250; Fetch (tokensUrl "0xbbb")] eq_refl)
      as (Hlookup & Hticker).
    split; [exact Hlookup | exact Hticker].
Defined.

(* ===================================================================== *)
(** * Further properties *)
(* ===================================================================== *)

(** ** Chain normalizer *)




Lemma upperChar_upperChar c : Str.upperChar (Str.upperChar c) = Str.upperChar c.
Proof. destruct c as [[] [] [] [] [] [] [] []]; reflexivity. Qed.

Lemma mapChars_mapChars f g s (k : ascii -> ascii) :
  (forall c, f (g c) = k c) -> Str.mapChars f (Str.mapChars g s) = Str.mapChars k s.
Proof. intros H. induction s as [|c s IH]; simpl; [reflexivity|]. now rewrite H, IH. Qed.




Lemma toUpperCase_toUpperCase s : Str.toUpperCase (Str.toUpperCase s) = Str.toUpperCase s.
Proof. apply mapChars_mapChars, upperChar_upperChar. Qed.





(** ** Search and lookup by address *)

Lemma getTokenByAddress_run chain addr h tr :
  getTokenByAddress chain addr h tr =
  match readPairs (respond h (requests tr) (tokensUrl addr)) with
  | Pairs [] => (None, tr ++ [Fetch (tokensUrl addr)])
  | Pairs (first :: rest) =>
      (match (if Str.truthy (normalizeChain chain)
              then List.filter (fun p => String.eqb (chainId p) (normalizeChain chain))
                     (first :: rest)
              else first :: rest) with
       | [] => Some first
       | kept => highestLiquidity kept
       end, tr ++ [Fetch (tokensUrl addr)])
  | _ => (None, tr ++ [Fetch (tokensUrl addr);
                       ConsoleError ("DexScreener fetch error for " ++ chain ++ ":"
                                     ++ addr ++ ":")%string])
  end.
Proof.
  unfold getTokenByAddress, bind, fetch.
  destruct (readPairs _) as [| |[|first rest]]; unfold consoleError, ret;
    rewrite <- ?app_assoc; try reflexivity.
  destruct (if Str.truthy (normalizeChain chain) then _ else _); reflexivity.
Qed.


(** X4.  With a chain other than the empty string, when some returned
    pair is on the normalized chain [getTokenByAddress] returns a pair
    on that chain whose liquidity is the highest among the pairs on
    that chain, whatever the liquidity of pairs on other chains. *)
Theorem getTokenByAddress_prefers_chain
    (h : Host) (tr : list Event) (chain addr : string) (pairs : list DexScreenerPair) :
  chain <> "" ->
  readPairs (respond h (requests tr) (tokensUrl addr)) = Pairs pairs ->
  (exists p, In p pairs /\ chainId p = normalizeChain chain) ->
  exists best,
    getTokenByAddress chain addr h tr = (Some best, tr ++ [Fetch (tokensUrl addr)]) /\
    In best pairs /\
    chainId best = normalizeChain chain /\
    (forall x, In x pairs -> chainId x = normalizeChain chain ->
               Num.gt (liquidityUsd x) (liquidityUsd best) = false).
Proof.
  intros Hne Hread (p & Hp & Hon).
  rewrite getTokenByAddress_run, Hread, normalizeChain_truthy by exact Hne.
  destruct pairs as [|first rest]; [destruct Hp|].
  set (kept := List.filter _ (first :: rest)).
  assert (Hkept : In p kept).
  { apply filter_In. split; [exact Hp | now apply String.eqb_eq]. }
  destruct (highestLiquidity_nonempty kept) as [best Hbest].
  { intros E. rewrite E in Hkept. destruct Hkept. }
  exists best. split.
  - destruct kept; [destruct Hkept | now rewrite Hbest].
  - pose proof (highestLiquidity_In _ _ Hbest) as Hin.
    apply filter_In in Hin. destruct Hin as [Hin Hc]. apply String.eqb_eq in Hc.
    repeat split; auto.
    intros x Hx Hxc. eapply highestLiquidity_max; eauto.
    apply filter_In. split; [exact Hx | now apply String.eqb_eq].
Qed.

(** X5.  [getTokenByAddress] returns absent exactly when the response is
    not read with at least one pair: with pairs in the response some
    pair is always returned, on the requested chain or not. *)
Theorem getTokenByAddress_absent_iff
    (h : Host) (tr : list Event) (chain addr : string) :
  fst (getTokenByAddress chain addr h tr) = None <->
  forall p rest, readPairs (respond h (requests tr) (tokensUrl addr)) <> Pairs (p :: rest).
Proof.
  rewrite getTokenByAddress_run.
  destruct (readPairs _) as [|status|[|first rest]]; cbn [fst];
    try (split; [discriminate | reflexivity]).
  split; [|intros H; now destruct (H first rest)].
  intros Hnone. exfalso.
  destruct (if Str.truthy (normalizeChain chain) then _ else _) as [|k kept] eqn:E;
    [discriminate|].
  destruct (highestLiquidity_nonempty (k :: kept)) as [best Hbest]; [discriminate|].
  congruence.
Qed.

(** ** Batch lookup: how many requests, and which pair per address *)

Lemma ceil30_step d : 1 <= d -> (d + 29) / 30 = S ((d - 30 + 29) / 30).
Proof.
  intros Hd. destruct (le_lt_dec 30 d) as [Hge | Hlt].
  - replace (d + 29) with ((d - 30 + 29) + 1 * 30) by lia.
    rewrite Nat.div_add by lia. lia.
  - replace (d - 30) with 0 by lia. rewrite (Nat.div_small (0 + 29)) by lia.
    symmetry. apply (Nat.div_unique (d + 29) 30 1 (d - 1)); lia.
Qed.

Lemma sliceFrom_count fuel : forall i (l : list string),
  List.length l - i <= fuel ->
  List.length (sliceFrom fuel i l) = (List.length l - i + 29) / 30.
Proof.
  induction fuel as [|fuel IH]; intros i l H; cbn [sliceFrom].
  - replace (List.length l - i) with 0 by lia. reflexivity.
  - destruct (Nat.ltb_spec i (List.length l)).
    + cbn [List.length]. rewrite IH by (unfold BATCH_SIZE; lia).
      rewrite (ceil30_step (List.length l - i)) by lia.
      do 3 f_equal. unfold BATCH_SIZE. lia.
    + replace (List.length l - i) with 0 by lia. reflexivity.
Qed.

Lemma makeBatches_count addresses :
  List.length (makeBatches addresses) = (List.length addresses + 29) / 30.
Proof.
  unfold makeBatches. rewrite sliceFrom_count by lia. now rewrite Nat.sub_0_r.
Qed.

(** X6.  A batch lookup of [n] addresses issues [n / 30] rounded up
    requests, whatever the responses are; for no address at all it
    returns the empty map with no request, pause or log. *)
Theorem getTokensByAddresses_request_count
    (h : Host) (tr : list Event) (addresses : list string) (chainFilter : option string) :
  requests (snd (getTokensByAddresses addresses chainFilter h tr))
  = requests tr + (List.length addresses + 29) / 30 /\
  (addresses = [] -> getTokensByAddresses addresses chainFilter h tr = (∅, tr)).
Proof.
  split; [|now intros ->].
  rewrite getTokensByAddresses_run. cbn [snd]. rewrite requests_app. f_equal.
  unfold requests. rewrite batchesSegments_requests, length_map.
  apply makeBatches_count.
Qed.

(** Every entry of the final map is the best pair of its address group
    in the response of some chunk, unless it was there at the start. *)
Lemma batchesResults_best h nc batches : forall k results a best,
  batchesResults h nc k batches results !! a = Some best ->
  results !! a = Some best \/
  exists i b pairs,
    batches !! i = Some b /\ answer h (k + i) b = Pairs pairs /\
    highestLiquidity (groupOf nc a pairs) = Some best.
Proof.
  induction batches as [|batch rest IH]; intros k results a best H; [now left|].
  simpl in H. apply IH in H. destruct H as [H | (i & b & pairs & Hb & Ha & Hbest)].
  - destruct (answer h k batch) as [| |pairs] eqn:Ha; try (now left).
    rewrite batchResults_lookup in H.
    destruct (highestLiquidity (groupOf nc a pairs)) as [best'|] eqn:Hbest; [|now left].
    injection H as ->. right. exists 0, batch, pairs.
    rewrite Nat.add_0_r. auto.
  - right. exists (S i), b, pairs. split; [exact Hb|].
    split; [|exact Hbest]. now replace (k + S i) with (S k + i) by lia.
Qed.

(** X7.  Every pair in the map returned by [getTokensByAddresses] is
    stored under its own base-token address and has the highest
    liquidity among the pairs with that base-token address that passed
    the chain filter in the response it came from. *)
Theorem getTokensByAddresses_best_per_address
    (h : Host) (tr : list Event) (addresses : list string) (chainFilter : option string)
    (a : string) (best : DexScreenerPair) :
  fst (getTokensByAddresses addresses chainFilter h tr) !! a = Some best ->
  exists i b pairs,
    makeBatches addresses !! i = Some b /\
    answer h (requests tr + i) b = Pairs pairs /\
    In best pairs /\
    address (baseToken best) = a /\
    (forall p, In p pairs ->
               offChain (normalizedFilter chainFilter) p = false ->
               address (baseToken p) = a ->
               Num.gt (liquidityUsd p) (liquidityUsd best) = false).
Proof.
  rewrite getTokensByAddresses_run. cbn [fst]. intros Hfinal.
  apply batchesResults_best in Hfinal.
  destruct Hfinal as [Hempty | (i & b & pairs & Hb & Ha & Hbest)].
  { rewrite lookup_empty in Hempty. discriminate. }
  exists i, b, pairs. split; [exact Hb|]. split; [exact Ha|].
  pose proof (highestLiquidity_In _ _ Hbest) as Hin.
  apply groupOf_In in Hin. destruct Hin as (Hin & _ & Haddr).
  repeat split; auto.
  intros p Hp Hon Hpa. eapply highestLiquidity_max; eauto.
  apply groupOf_In. auto.
Qed.

(** ** Metrics: what is returned, and the pacing of a batch *)



Section MetricsMore.

Variable parseFloat : string -> number.



(** X9.  No numeric field of the metrics is NaN, whatever the pair holds
    and whatever [parseFloat] returns, and the chain field is in upper
    case. *)
Theorem pairToMetrics_numbers (now : Z) (p : DexScreenerPair) :
  let m := pairToMetrics parseFloat now p in
  Num.isNaN (tm_priceUsd m) = false /\
  Num.isNaN (tm_priceChange24h m) = false /\
  Num.isNaN (tm_volume24h m) = false /\
  Num.isNaN (tm_liquidity m) = false /\
  Num.isNaN (tm_marketCap m) = false /\
  Num.isNaN (tm_fdv m) = false /\
  Str.toUpperCase (tm_chain m) = tm_chain m.
Proof.
  cbn zeta. unfold pairToMetrics.
  cbn [tm_priceUsd tm_priceChange24h tm_volume24h tm_liquidity tm_marketCap tm_fdv tm_chain].
  repeat split; try (repeat apply NumFacts.orElse_not_NaN; reflexivity).
  apply toUpperCase_toUpperCase.
Qed.




End MetricsMore.

(** ** Sorting *)

Lemma sub_gt_zero u v :
  Num.isNaN u = false -> Num.isNaN v = false ->
  Num.gt (NumArith.sub u v) Num.zero = Num.gt u v.
Proof.
  intros Hu Hv. destruct u as [| | |x], v as [| | |y]; simpl in *; try congruence.
  f_equal. destruct (Qle_bool x y) eqn:E.
  - apply Qle_bool_iff in E. apply Qle_bool_iff. lra.
  - destruct (Qle_bool (x - y) 0) eqn:E'; [|reflexivity].
    apply Qle_bool_iff in E'. assert (x <= y)%Q by lra.
    apply Qle_bool_iff in H. congruence.
Qed.

Section Sorting.

Context {A : Type}.
Variable compareFn : A -> A -> number.

Lemma insertSorted_perm x l : Permutation (insertSorted compareFn x l) (x :: l).
Proof.
  induction l as [|y l IH]; simpl; [reflexivity|].
  destruct (Num.gt (compareFn x y) Num.zero); [|reflexivity].
  rewrite IH. apply perm_swap.
Qed.

Lemma arraySort_perm l : Permutation (arraySort compareFn l) l.
Proof.
  induction l as [|x l IH]; simpl; [reflexivity|].
  unfold arraySort in *. simpl. rewrite insertSorted_perm. now constructor.
Qed.

(** The comparators of the source: the difference of a key, second
    argument first. *)
Variable key : A -> number.
Hypothesis compareFn_key : forall a b, compareFn a b = NumArith.sub (key b) (key a).

Lemma insertSorted_sorted x l :
  Num.isNaN (key x) = false ->
  Forall (fun a => Num.isNaN (key a) = false) l ->
  StronglySorted (fun a b => Num.gt (key b) (key a) = false) l ->
  StronglySorted (fun a b => Num.gt (key b) (key a) = false) (insertSorted compareFn x l).
Proof.
  intros Hx Hl Hsorted. induction Hsorted as [|y l Hsorted IH Hy]; simpl.
  - repeat constructor.
  - inversion Hl as [|? ? Hky Hl']; subst.
    rewrite compareFn_key, sub_gt_zero by assumption.
    destruct (Num.gt (key y) (key x)) eqn:Hgt.
    + constructor; [now apply IH|].
      eapply Permutation_Forall; [symmetry; apply insertSorted_perm|].
      constructor; [now apply NumFacts.gt_asym | exact Hy].
    + constructor; [now constructor|].
      constructor; [exact Hgt|].
      rewrite Forall_forall in Hy, Hl' |- *. intros z Hz.
      destruct (Num.gt (key z) (key x)) eqn:Hzx; [|reflexivity].
      assert (Num.gt (key z) (key y) = true)
        by (eapply NumFacts.gt_ngt_trans; eauto).
      rewrite Hy in H by exact Hz. discriminate.
Qed.

Lemma arraySort_sorted l :
  Forall (fun a => Num.isNaN (key a) = false) l ->
  StronglySorted (fun a b => Num.gt (key b) (key a) = false) (arraySort compareFn l).
Proof.
  induction l as [|x l IH]; intros Hl; [constructor|].
  inversion Hl; subst. unfold arraySort in *. simpl.
  apply insertSorted_sorted; auto.
  eapply Permutation_Forall; [symmetry; apply (arraySort_perm l)|]. assumption.
Qed.

End Sorting.

(** ** Discovery *)

Lemma volume24_number p : Num.isNaN (volume24 p) = false.
Proof. apply NumFacts.orElse_not_NaN. reflexivity. Qed.

(** X11.  [getNewPairs] issues one request, for the pairs of the
    normalized chain.  When the response is read, the result holds the
    same pairs as the response, reordered; if every pair has a creation
    time that is a number, they are in descending order of creation
    time, newest first.  Otherwise the result is the empty list and an
    error is logged. *)
Theorem getNewPairs_newest_first (h : Host) (tr : list Event) (chain : string) :
  let target := pairsUrl (normalizeChain chain) in
  let r := readPairs (respond h (requests tr) target) in
  let run := getNewPairs chain h tr in
  (forall pairs,
      r = Pairs pairs ->
      Permutation (fst run) pairs /\
      snd run = tr ++ [Fetch target] /\
      (Forall (fun p => Num.isNaN (NumArith.toNumber (pairCreatedAt p)) = false) pairs ->
       StronglySorted
         (fun a b => Num.gt (NumArith.toNumber (pairCreatedAt b))
                            (NumArith.toNumber (pairCreatedAt a)) = false)
         (fst run))) /\
  ((forall pairs, r <> Pairs pairs) ->
   run = ([], tr ++ [Fetch target;
                     ConsoleError ("DexScreener new pairs error for " ++ chain ++ ":")%string])).
Proof.
  cbn zeta. unfold getNewPairs, bind, fetch.
  destruct (readPairs _) as [|status|pairs0]; unfold consoleError, ret; cbn [fst snd];
    rewrite <- ?app_assoc.
  - split; [discriminate | reflexivity].
  - split; [discriminate | reflexivity].
  - split; [|intros H; now destruct (H pairs0)].
    intros pairs [= <-]. split; [apply arraySort_perm|]. split; [reflexivity|].
    intros Hnum.
    apply (arraySort_sorted byCreation (fun p => NumArith.toNumber (pairCreatedAt p)));
      [reflexivity | exact Hnum].
Qed.

(** X12.  When the response is read, [searchByVolume] returns exactly
    the response's pairs whose 24h volume (missing read as 0) is at
    least the threshold, 30000 when none is given, in descending order
    of that volume.  Otherwise the result is the empty list and an error
    is logged. *)
Theorem searchByVolume_filtered_sorted
    (h : Host) (tr : list Event) (query : string) (minVolume24h : option number) :
  let minVolume := default (Num.ofZ 30000) minVolume24h in
  let r := readPairs (respond h (requests tr) (searchUrl query)) in
  let run := searchByVolume query minVolume24h h tr in
  (forall pairs,
      r = Pairs pairs ->
      Permutation (fst run)
        (List.filter (fun p => NumArith.ge (volume24 p) minVolume) pairs) /\
      (forall p, In p (fst run) <->
                 In p pairs /\ NumArith.ge (volume24 p) minVolume = true) /\
      StronglySorted (fun a b => Num.gt (volume24 b) (volume24 a) = false) (fst run) /\
      snd run = tr ++ [Fetch (searchUrl query)]) /\
  ((forall pairs, r <> Pairs pairs) ->
   run = ([], tr ++ [Fetch (searchUrl query);
                     ConsoleError ("DexScreener volume search error for "
                                   ++ query ++ ":")%string])).
Proof.
  cbn zeta. unfold searchByVolume, bind, fetch.
  destruct (readPairs _) as [|status|pairs0]; unfold consoleError, ret; cbn [fst snd];
    rewrite <- ?app_assoc.
  - split; [discriminate | reflexivity].
  - split; [discriminate | reflexivity].
  - split; [|intros H; now destruct (H pairs0)].
    intros pairs [= <-]. split; [apply arraySort_perm|]. split; [|split; [|reflexivity]].
    + intros p. split; intros Hp.
      * eapply Permutation_in in Hp; [|apply arraySort_perm].
        apply filter_In in Hp. exact Hp.
      * eapply Permutation_in; [symmetry; apply arraySort_perm|].
        apply filter_In. exact Hp.
    + apply (arraySort_sorted byVolume volume24); [reflexivity|].
      apply Forall_forall. intros p _. apply volume24_number.
Qed.

(** ** Pool addresses *)

Lemma indexOf_lookup x arr : forall i, indexOf x arr = Some i -> arr !! i = Some x.
Proof.
  induction arr as [|y arr IH]; intros i H; simpl in H; [discriminate|].
  destruct (String.eqb_spec y x) as [-> | Hne].
  - injection H as <-. reflexivity.
  - destruct (indexOf x arr) as [j|]; [|discriminate].
    injection H as <-. simpl. now apply IH.
Qed.

Lemma indexOf_first x arr : forall i j,
  indexOf x arr = Some i -> arr !! j = Some x -> i <= j.
Proof.
  induction arr as [|y arr IH]; intros i j H Hj; simpl in H; [discriminate|].
  destruct (String.eqb_spec y x) as [-> | Hne].
  - injection H as <-. lia.
  - destruct (indexOf x arr) as [i'|] eqn:E; [|discriminate].
    injection H as <-. destruct j as [|j]; simpl in Hj; [congruence|].
    specialize (IH i' j eq_refl Hj). lia.
Qed.

Lemma indexOf_In x arr : In x arr -> exists i, indexOf x arr = Some i.
Proof.
  induction arr as [|y arr IH]; intros H; [destruct H|]. simpl.
  destruct (String.eqb_spec y x) as [-> | Hne]; [eauto|].
  destruct H as [-> | H]; [congruence|].
  destruct (IH H) as [i ->]. simpl. eauto.
Qed.

Lemma filterIndexed_In {A} (f : A -> nat -> bool) arr : forall k x,
  In x (filterIndexed f k arr) <-> exists i, arr !! i = Some x /\ f x (k + i) = true.
Proof.
  induction arr as [|y arr IH]; intros k x; simpl.
  - split; [intros [] | intros (i & Hi & _); discriminate].
  - split.
    + intros H.
      assert (Hrest : In x (filterIndexed f (S k) arr) ->
                      exists i, (y :: arr) !! i = Some x /\ f x (k + i) = true).
      { intros Hin. apply IH in Hin. destruct Hin as (i & Hi & Hf).
        exists (S i). split; [exact Hi|]. now replace (k + S i) with (S k + i) by lia. }
      destruct (f y k) eqn:Hy; [|auto].
      destruct H as [<- | H]; [|auto].
      exists 0. split; [reflexivity|]. now rewrite Nat.add_0_r.
    + intros (i & Hi & Hf). destruct i as [|i]; simpl in Hi.
      * injection Hi as ->. rewrite Nat.add_0_r in Hf. rewrite Hf. now left.
      * assert (Hin : In x (filterIndexed f (S k) arr)).
        { apply IH. exists i. split; [exact Hi|].
          now replace (S k + i) with (k + S i) by lia. }
        destruct (f y k); [now right | exact Hin].
Qed.

Lemma filterIndexed_sublist {A} (f : A -> nat -> bool) arr : forall k,
  sublist (filterIndexed f k arr) arr.
Proof.
  induction arr as [|y arr IH]; intros k; simpl; [constructor|].
  destruct (f y k); [apply sublist_skip | apply sublist_cons]; apply IH.
Qed.

Lemma filterIndexed_NoDup {A} (f : A -> nat -> bool) arr : forall k,
  (forall i j x, arr !! i = Some x -> arr !! j = Some x ->
                 f x (k + i) = true -> f x (k + j) = true -> i = j) ->
  List.NoDup (filterIndexed f k arr).
Proof.
  induction arr as [|y arr IH]; intros k Huniq; simpl; [constructor|].
  assert (Hrest : List.NoDup (filterIndexed f (S k) arr)).
  { apply IH. intros i j x Hi Hj Hfi Hfj.
    assert (S i = S j); [|lia].
    apply (Huniq (S i) (S j) x); auto.
    - now replace (k + S i) with (S k + i) by lia.
    - now replace (k + S j) with (S k + j) by lia. }
  destruct (f y k) eqn:Hy; [|exact Hrest].
  constructor; [|exact Hrest].
  intros Hin. apply filterIndexed_In in Hin. destruct Hin as (i & Hi & Hf).
  assert (0 = S i); [|lia].
  apply (Huniq 0 (S i) y); auto.
  - now rewrite Nat.add_0_r.
  - now replace (k + S i) with (S k + i) by lia.
Qed.

(** Kept elements stay in the order of their indices. *)
Lemma filterIndexed_order {A} (f : A -> nat -> bool) arr : forall k l1 a l2 b l3,
  filterIndexed f k arr = l1 ++ a :: l2 ++ b :: l3 ->
  exists i j, i < j /\
    arr !! i = Some a /\ f a (k + i) = true /\
    arr !! j = Some b /\ f b (k + j) = true.
Proof.
  induction arr as [|y arr IH]; intros k l1 a l2 b l3 H; simpl in H.
  - destruct l1; discriminate.
  - assert (Hshift : forall l1',
              filterIndexed f (S k) arr = l1' ++ a :: l2 ++ b :: l3 ->
              exists i j, i < j /\
                (y :: arr) !! i = Some a /\ f a (k + i) = true /\
                (y :: arr) !! j = Some b /\ f b (k + j) = true).
    { intros l1' H'. destruct (IH _ _ _ _ _ _ H') as (i & j & Hij & Hi & Hfi & Hj & Hfj).
      exists (S i), (S j). split; [lia|].
      replace (k + S i) with (S k + i) by lia.
      replace (k + S j) with (S k + j) by lia. auto. }
    destruct (f y k) eqn:Hy; [|exact (Hshift l1 H)].
    destruct l1 as [|z l1]; simpl in H.
    + injection H as -> Hrest.
      assert (Hb : In b (filterIndexed f (S k) arr)).
      { rewrite Hrest. apply in_or_app. right. now left. }
      apply filterIndexed_In in Hb. destruct Hb as (j & Hj & Hfj).
      exists 0, (S j). split; [lia|]. rewrite Nat.add_0_r.
      replace (k + S j) with (S k + j) by lia. auto.
    + injection H as _ Hrest. exact (Hshift l1 Hrest).
Qed.

Lemma sublist_map {A B} (f : A -> B) (l1 l2 : list A) :
  sublist l1 l2 -> sublist (map f l1) (map f l2).
Proof.
  induction 1; simpl; [constructor | now apply sublist_skip | now apply sublist_cons].
Qed.

Lemma firstOccurrences_In arr x : In x (firstOccurrences arr) <-> In x arr.
Proof.
  unfold firstOccurrences. rewrite filterIndexed_In. split.
  - intros (i & Hi & _). apply list_elem_of_In. eapply list_elem_of_lookup_2. exact Hi.
  - intros Hin. destruct (indexOf_In _ _ Hin) as [i Hi].
    exists i. split; [now apply indexOf_lookup|].
    rewrite Hi. simpl. apply Nat.eqb_refl.
Qed.

Lemma firstOccurrences_NoDup arr : List.NoDup (firstOccurrences arr).
Proof.
  apply filterIndexed_NoDup. intros i j x _ _ Hi Hj. simpl in *.
  destruct (indexOf x arr) as [n|]; [|discriminate].
  apply Nat.eqb_eq in Hi, Hj. lia.
Qed.

Lemma firstOccurrences_order arr l1 a l2 b l3 :
  firstOccurrences arr = l1 ++ a :: l2 ++ b :: l3 ->
  exists i j, indexOf a arr = Some i /\ indexOf b arr = Some j /\ i < j.
Proof.
  intros H. apply filterIndexed_order in H.
  destruct H as (i & j & Hij & _ & Hfi & _ & Hfj). simpl in *.
  destruct (indexOf a arr) as [n|]; [|discriminate].
  destruct (indexOf b arr) as [m|]; [|discriminate].
  apply Nat.eqb_eq in Hfi, Hfj. subst. eauto.
Qed.

(** X13.  [getLiquidityPoolAddress] makes the same request as
    [getTokenByAddress] and returns the pool address of the pair that
    returns; the result is never the empty string: an empty pool address
    gives absent. *)
Theorem getLiquidityPoolAddress_projects
    (h : Host) (tr : list Event) (chain tokenAddress : string) :
  (forall a, fst (getLiquidityPoolAddress chain tokenAddress h tr) = Some a <->
             a <> "" /\
             exists p, fst (getTokenByAddress chain tokenAddress h tr) = Some p /\
                       pairAddress p = a) /\
  snd (getLiquidityPoolAddress chain tokenAddress h tr)
  = snd (getTokenByAddress chain tokenAddress h tr).
Proof.
  unfold getLiquidityPoolAddress, bind, ret.
  destruct (getTokenByAddress chain tokenAddress h tr) as [[p|] tr']; cbn [fst snd].
  - split; [|reflexivity]. intros a.
    destruct (pairAddress p) as [|c s] eqn:E; cbn [Str.truthy].
    + split; [discriminate|]. intros (Hne & q & [= <-] & Ha). congruence.
    + split.
      * intros [= <-]. split; [discriminate|]. eauto.
      * intros (_ & q & [= <-] & Ha). congruence.
  - split; [|reflexivity]. intros a. split; [discriminate|].
    intros (_ & q & Hq & _). discriminate.
Qed.

(** X14.  When the response is read, [getAllLiquidityPoolAddresses]
    returns the pool addresses of exactly the pairs whose chain is the
    normalized chain (for the empty string as chain: the pairs with an
    empty chain), each once, in the order in which they first occur in
    the response.  A response with a status that is not ok gives the
    empty list without a log. *)
Theorem getAllLiquidityPoolAddresses_distinct
    (h : Host) (tr : list Event) (chain tokenAddress : string) :
  let r := readPairs (respond h (requests tr) (tokensUrl tokenAddress)) in
  let run := getAllLiquidityPoolAddresses chain tokenAddress h tr in
  (forall pairs,
      r = Pairs pairs ->
      let onChain :=
        map pairAddress
            (List.filter (fun p => String.eqb (chainId p) (normalizeChain chain)) pairs) in
      List.NoDup (fst run) /\
      (forall a, In a (fst run) <->
                 exists p, In p pairs /\ chainId p = normalizeChain chain /\
                           pairAddress p = a) /\
      sublist (fst run) (map pairAddress pairs) /\
      (forall l1 a l2 b l3,
          fst run = l1 ++ a :: l2 ++ b :: l3 ->
          exists i j, indexOf a onChain = Some i /\ indexOf b onChain = Some j /\ i < j)) /\
  (forall status, r = NotOk status -> run = ([], tr ++ [Fetch (tokensUrl tokenAddress)])).
Proof.
  cbn zeta. unfold getAllLiquidityPoolAddresses, bind, fetch.
  destruct (readPairs _) as [|status|pairs0]; unfold consoleError, ret; cbn [fst snd].
  - split; discriminate.
  - split; [discriminate | reflexivity].
  - split; [|discriminate]. intros pairs [= <-].
    split; [apply firstOccurrences_NoDup|]. split; [|split].
    + intros a. rewrite firstOccurrences_In, in_map_iff. split.
      * intros (p & Ha & Hp). apply filter_In in Hp. destruct Hp as [Hp Hc].
        apply String.eqb_eq in Hc. eauto.
      * intros (p & Hp & Hc & Ha). exists p. split; [exact Ha|].
        apply filter_In. split; [exact Hp | now apply String.eqb_eq].
    + etransitivity; [apply filterIndexed_sublist|].
      apply sublist_map. clear. induction pairs0 as [|p l IH]; simpl; [constructor|].
      destruct (String.eqb _ _); [now apply sublist_skip | now apply sublist_cons].
    + intros l1 a l2 b l3. apply firstOccurrences_order.
Qed.

(** X15.  For a chain other than the empty string and a response that is
    read: if some pair is on the normalized chain, the address returned
    by [getLiquidityPoolAddress] is among those returned by
    [getAllLiquidityPoolAddresses]; if none is, the latter returns the
    empty list, while the former still answers from the first pair. *)
Theorem primary_pool_among_all
    (h : Host) (tr : list Event) (chain tokenAddress : string)
    (pairs : list DexScreenerPair) :
  chain <> "" ->
  readPairs (respond h (requests tr) (tokensUrl tokenAddress)) = Pairs pairs ->
  ((exists p, In p pairs /\ chainId p = normalizeChain chain) ->
   forall a, fst (getLiquidityPoolAddress chain tokenAddress h tr) = Some a ->
             In a (fst (getAllLiquidityPoolAddresses chain tokenAddress h tr))) /\
  ((forall p, In p pairs -> chainId p <> normalizeChain chain) ->
   fst (getAllLiquidityPoolAddresses chain tokenAddress h tr) = [] /\
   forall first rest, pairs = first :: rest -> pairAddress first <> "" ->
     fst (getLiquidityPoolAddress chain tokenAddress h tr) = Some (pairAddress first)).
Proof.
  intros Hne Hread.
  unfold getLiquidityPoolAddress, getAllLiquidityPoolAddresses, bind, fetch, ret.
  rewrite getTokenByAddress_run, Hread, normalizeChain_truthy by exact Hne.
  cbn [fst snd]. split.
  - intros (p & Hp & Hon) a.
    destruct pairs as [|first rest]; [destruct Hp|]. cbn [fst].
    set (kept := List.filter _ (first :: rest)).
    assert (Hkept : In p kept).
    { apply filter_In. split; [exact Hp | now apply String.eqb_eq]. }
    destruct kept as [|k kept'] eqn:Ek; [destruct Hkept|]. rewrite <- Ek.
    destruct (highestLiquidity kept) as [best|] eqn:Hbest; [|discriminate].
    destruct (Str.truthy (pairAddress best)); [|discriminate].
    intros [= <-]. apply firstOccurrences_In, in_map.
    eapply highestLiquidity_In; eauto.
  - intros Hoff.
    assert (Hnone : forall l, (forall p, In p l -> In p pairs) ->
              List.filter (fun p => String.eqb (chainId p) (normalizeChain chain)) l = []).
    { intros l Hl. apply filter_none. intros p Hp. apply String.eqb_neq.
      apply Hoff. now apply Hl. }
    split.
    + rewrite Hnone by auto. reflexivity.
    + intros first rest -> Haddr. rewrite Hnone by auto. cbn [fst].
      destruct (pairAddress first); [congruence | reflexivity].
Qed.

(** ** The further properties at work on the sample data *)



Lemma getTokenByAddress_prefers_chain_witness :
  exists best,
    getTokenByAddress "eth" "0xaaa" Sample2.mixedHost []
    = (Some best, [Fetch (tokensUrl "0xaaa")]) /\
    chainId best = "ethereum".
Proof.
  destruct (getTokenByAddress_prefers_chain Sample2.mixedHost [] "eth" "0xaaa" Sample2.mixed)
    as (best & Hrun & _ & Hchain & _).
  - discriminate.
  - reflexivity.
  - exists Sample.ethSmall. split; [right; now left | reflexivity].
  - exists best. split; [exact Hrun | exact Hchain].
Defined.

Lemma getTokensByAddresses_best_per_address_witness :
  exists i b pairs,
    makeBatches ["0xaaa"; "So1"] !! i = Some b /\
    answer Sample.twoChains i b = Pairs pairs /\
    In Sample.ethSmall pairs.
Proof.
  destruct (getTokensByAddresses_best_per_address Sample.twoChains [] ["0xaaa"; "So1"] None
              "0xaaa" Sample.ethSmall eq_refl)
    as (i & b & pairs & Hb & Ha & Hin & _).
  exists i, b, pairs. auto.
Defined.


Lemma getNewPairs_newest_first_witness :
  Permutation (fst (getNewPairs "SOL" Sample2.poolHost [])) Sample2.pools /\
  StronglySorted
    (fun a b => Num.gt (NumArith.toNumber (pairCreatedAt b))
                       (NumArith.toNumber (pairCreatedAt a)) = false)
    (fst (getNewPairs "SOL" Sample2.poolHost [])).
Proof.
  destruct (getNewPairs_newest_first Sample2.poolHost [] "SOL") as [Hread _].
  destruct (Hread Sample2.pools eq_refl) as (Hperm & _ & Hsorted).
  split; [exact Hperm|]. apply Hsorted. repeat constructor.
Defined.

Lemma searchByVolume_filtered_sorted_witness :
  In Sample2.poolC
     (fst (searchByVolume "meme" (Some (Num.ofZ 50000)) Sample2.poolHost [])) /\
  ~ In Sample2.poolA
       (fst (searchByVolume "meme" (Some (Num.ofZ 50000)) Sample2.poolHost [])).
Proof.
  destruct (searchByVolume_filtered_sorted Sample2.poolHost [] "meme"
              (Some (Num.ofZ 50000))) as [Hread _].
  destruct (Hread Sample2.pools eq_refl) as (_ & Hmember & _).
  split.
  - apply Hmember. split; [|reflexivity]. do 4 right. now left.
  - intros Hin. apply Hmember in Hin. destruct Hin as [_ Hge]. discriminate.
Defined.

Lemma getAllLiquidityPoolAddresses_distinct_witness :
  List.NoDup (fst (getAllLiquidityPoolAddresses "sol" "Tok1" Sample2.poolHost [])) /\
  In "poolB" (fst (getAllLiquidityPoolAddresses "sol" "Tok1" Sample2.poolHost [])).
Proof.
  destruct (getAllLiquidityPoolAddresses_distinct Sample2.poolHost [] "sol" "Tok1")
    as [Hread _].
  destruct (Hread Sample2.pools eq_refl) as (Hnodup & Hmember & _).
  split; [exact Hnodup|]. apply Hmember.
  exists Sample2.poolB. split; [right; now left | split; reflexivity].
Defined.

Lemma primary_pool_among_all_witness :
  In "poolA" (fst (getAllLiquidityPoolAddresses "sol" "Tok1" Sample2.poolHost [])).
Proof.
  destruct (primary_pool_among_all Sample2.poolHost [] "sol" "Tok1" Sample2.pools)
    as [Hamong _].
  - discriminate.
  - reflexivity.
  - apply Hamong; [|reflexivity].
    exists Sample2.poolA. split; [now left | reflexivity].
Defined.
